(** * cloudant._common_util: query-option codec and authenticated sessions

    A shallow embedding of [src/cloudant/_common_util.py] together with the
    properties its specification states about it.

    - Python values are the inductive type [pyval]; a value's class is read
      with [type_of] and tested with [isinstance], as the code does.
    - A Python [dict] is an insertion-ordered association list ([odict]).
    - A raised exception is the [Raise] branch of [result].
    - The HTTP transport ([requests.Session]) is the environment: a session
      method is a function on a [world] that records every exchange. *)

From Stdlib Require Import DecimalString Ascii.
From stdpp Require Import gmap strings list fin_maps.

#[local] Set Warnings "-register-all".

Local Open Scope string_scope.
Local Open Scope Z_scope.

(** ** Python values and classes *)

(** The values the module handles: the JSON-shaped values, tuples, and byte
    strings (a sequence class that is none of [str], [list], [tuple]).
    A [str] is a [string] whose characters are the code points below 256.
    Floating-point numbers are left out. The class of a value is exactly one
    of the builtin classes: an instance of a class derived from them (the
    module's own [_Code], a named tuple) is not a [pyval], and the
    properties below say nothing of such a value. *)
Inductive pyval : Type :=
| PNone
| PBool (b : bool)
| PInt (n : Z)
| PStr (s : string)
| PBytes (bs : list ascii)
| PList (xs : list pyval)
| PTuple (xs : list pyval)
| PDict (kvs : list (pyval * pyval)).

(** The classes the module names. [TSequence] is the abstract base class
    [collections.Sequence]. *)
Inductive pytype : Type :=
| Tbool | Tint | Tstr | TNoneType | Tbytes | Tlist | Ttuple | Tdict | TSequence.

#[global] Instance pytype_eq_dec : EqDecision pytype.
Proof. solve_decision. Defined.

(** Modelled from the spec: the constants of [cloudant._2to3], which the
    module imports and the source tree does not hold. The spec speaks of
    "integer types" and "string"; these are their Python 3 values. *)
Definition LONGTYPE : pytype := Tint.
Definition STRTYPE : pytype := Tstr.
Definition UNITYPE : pytype := Tstr.
Definition NONETYPE : pytype := TNoneType.

(** [type(v)] *)
Definition type_of (v : pyval) : pytype :=
  match v with
  | PNone => TNoneType
  | PBool _ => Tbool
  | PInt _ => Tint
  | PStr _ => Tstr
  | PBytes _ => Tbytes
  | PList _ => Tlist
  | PTuple _ => Ttuple
  | PDict _ => Tdict
  end.

(** [issubclass(c, d)]: [bool] derives from [int]; [str], [bytes], [list]
    and [tuple] are sequences. *)
Definition issubclass (c d : pytype) : bool :=
  match c, d with
  | Tbool, Tint => true
  | (Tstr | Tbytes | Tlist | Ttuple), TSequence => true
  | _, _ => bool_decide (c = d)
  end.

(** [isinstance(v, types)] for a tuple of classes. *)
Definition isinstance (v : pyval) (types : list pytype) : bool :=
  existsb (issubclass (type_of v)) types.

(** ** Exceptions and results *)

Inductive exn : Type :=
| TypeError
| ValueError
| AttributeError
| KeyError (key : string)
| ConnectionError
| HTTPError (status : Z)
| CloudantException (msg : pyval)
| CloudantArgumentError (code : Z) (args : list errarg)
with errarg : Type :=
| AStr (s : string)
| AVal (v : pyval)
| ATypes (ts : list pytype)
| AExn (e : exn).

(** [requests.RequestException] and its subclasses. *)
Definition is_RequestException (e : exn) : bool :=
  match e with
  | ConnectionError | HTTPError _ => true
  | _ => false
  end.

Inductive result (A : Type) : Type :=
| Ok (a : A)
| Raise (e : exn).
Arguments Ok {A} a.
Arguments Raise {A} e.

Definition bind {A B : Type} (r : result A) (k : A -> result B) : result B :=
  match r with
  | Ok a => k a
  | Raise e => Raise e
  end.

Notation "x <~ r ;; k" := (bind r (fun x => k))
  (at level 100, r at next level, right associativity).

(** ** Dictionaries *)

(** A [dict] keeps its keys in insertion order; setting a key that is present
    replaces the value where it stands. *)
Abbreviation odict K V := (list (K * V)) (only parsing).

Section Odict.
Context {K V : Type} `{EqDecision K}.

Fixpoint dict_get (k : K) (d : odict K V) : option V :=
  match d with
  | [] => None
  | (k', v) :: d' => if decide (k = k') then Some v else dict_get k d'
  end.

Fixpoint dict_set (k : K) (v : V) (d : odict K V) : odict K V :=
  match d with
  | [] => [(k, v)]
  | (k', v') :: d' =>
      if decide (k = k') then (k', v) :: d' else (k', v') :: dict_set k v d'
  end.

(** [del d[k]] for a key that may be absent. *)
Fixpoint dict_del (k : K) (d : odict K V) : odict K V :=
  match d with
  | [] => []
  | (k', v) :: d' => if decide (k = k') then d' else (k', v) :: dict_del k d'
  end.

(** [d.update(e)] *)
Definition dict_update (d e : odict K V) : odict K V :=
  foldl (fun acc kv => dict_set kv.1 kv.2 acc) d e.

(** A dictionary display [{k1: v1, ...}]. *)
Definition dict_of (items : list (K * V)) : odict K V := dict_update [] items.

Definition keys (d : odict K V) : list K := d.*1.

End Odict.

(** ** Argument types *)

Definition RESULT_ARG_TYPES : odict string (list pytype) :=
  dict_of
    [ ("descending", [Tbool]);
      ("endkey", [Tint; LONGTYPE; STRTYPE; TSequence]);
      ("endkey_docid", [STRTYPE]);
      ("group", [Tbool]);
      ("group_level", [Tint; LONGTYPE; NONETYPE]);
      ("include_docs", [Tbool]);
      ("inclusive_end", [Tbool]);
      ("key", [Tint; LONGTYPE; STRTYPE; TSequence]);
      ("keys", [Tlist]);
      ("limit", [Tint; LONGTYPE; NONETYPE]);
      ("reduce", [Tbool]);
      ("skip", [Tint; LONGTYPE; NONETYPE]);
      ("stale", [STRTYPE]);
      ("startkey", [Tint; LONGTYPE; STRTYPE; TSequence]);
      ("startkey_docid", [STRTYPE]) ].

Definition _COUCH_DB_UPDATES_ARG_TYPES : odict string (list pytype) :=
  dict_of
    [ ("feed", [STRTYPE]);
      ("heartbeat", [Tbool]);
      ("timeout", [Tint; LONGTYPE; NONETYPE]) ].

Definition _DB_UPDATES_ARG_TYPES : odict string (list pytype) :=
  dict_set "heartbeat" [Tint; LONGTYPE; NONETYPE]
    (dict_update
       (dict_of
          [ ("descending", [Tbool]);
            ("limit", [Tint; LONGTYPE; NONETYPE]);
            ("since", [Tint; LONGTYPE; STRTYPE]) ])
       _COUCH_DB_UPDATES_ARG_TYPES).

Definition _CHANGES_ARG_TYPES : odict string (list pytype) :=
  dict_update
    (dict_of
       [ ("conflicts", [Tbool]);
         ("doc_ids", [Tlist]);
         ("filter", [STRTYPE]);
         ("include_docs", [Tbool]);
         ("style", [STRTYPE]) ])
    _DB_UPDATES_ARG_TYPES.

Definition feed_arg_types (feed_type : string) : odict string (list pytype) :=
  if decide (feed_type = "Cloudant") then _DB_UPDATES_ARG_TYPES
  else if decide (feed_type = "CouchDB") then _COUCH_DB_UPDATES_ARG_TYPES
  else _CHANGES_ARG_TYPES.

(** ** [json.dumps] *)

Definition quote_char : ascii := "034"%char.
Definition backslash_char : ascii := "\"%char.

Definition hex_digit (n : N) : ascii :=
  match n with
  | 0 => "0" | 1 => "1" | 2 => "2" | 3 => "3" | 4 => "4" | 5 => "5"
  | 6 => "6" | 7 => "7" | 8 => "8" | 9 => "9" | 10 => "a" | 11 => "b"
  | 12 => "c" | 13 => "d" | 14 => "e" | _ => "f"
  end%N%char.

(** One character of [py_encode_basestring_ascii]: the backslash, the quote
    and everything outside [' '..'~'] are escaped. *)
Definition escape_char (c : ascii) : string :=
  let n := N_of_ascii c in
  let esc (x : ascii) := String backslash_char (String x "") in
  if (n =? 92)%N then esc backslash_char
  else if (n =? 34)%N then esc quote_char
  else if (n =? 8)%N then esc "b"%char
  else if (n =? 12)%N then esc "f"%char
  else if (n =? 10)%N then esc "n"%char
  else if (n =? 13)%N then esc "r"%char
  else if (n =? 9)%N then esc "t"%char
  else if ((32 <=? n) && (n <=? 126))%N then String c ""
  else String backslash_char
         (String "u" (String "0" (String "0"
            (String (hex_digit (n / 16)) (String (hex_digit (n mod 16)) ""))))).

Fixpoint escape_string (s : string) : string :=
  match s with
  | EmptyString => ""
  | String c s' => escape_char c ++ escape_string s'
  end.

Definition encode_basestring_ascii (s : string) : string :=
  String quote_char (escape_string s ++ String quote_char "").

(** [str(n)] for an integer. *)
Definition int_str (n : Z) : string := NilZero.string_of_int (Z.to_int n).

Fixpoint join (sep : string) (parts : list string) : string :=
  match parts with
  | [] => ""
  | [p] => p
  | p :: ps => p ++ sep ++ join sep ps
  end.

(** A dictionary key as the encoder writes it; keys of other classes raise
    [TypeError]. *)
Definition json_key (k : pyval) : option string :=
  match k with
  | PStr s => Some s
  | PBool true => Some "true"
  | PBool false => Some "false"
  | PNone => Some "null"
  | PInt n => Some (int_str n)
  | _ => None
  end.

(** [json.dumps(v)] with the default separators and [ensure_ascii];
    [None] stands for the [TypeError] of a value that is not serializable. *)
Fixpoint json_dumps (v : pyval) : option string :=
  match v with
  | PNone => Some "null"
  | PBool true => Some "true"
  | PBool false => Some "false"
  | PInt n => Some (int_str n)
  | PStr s => Some (encode_basestring_ascii s)
  | PBytes _ => None
  | PList xs | PTuple xs =>
      let fix items (l : list pyval) : option (list string) :=
        match l with
        | [] => Some []
        | x :: l' =>
            match json_dumps x, items l' with
            | Some s, Some ss => Some (s :: ss)
            | _, _ => None
            end
        end in
      match items xs with
      | Some ss => Some ("[" ++ join ", " ss ++ "]")
      | None => None
      end
  | PDict kvs =>
      let fix members (l : list (pyval * pyval)) : option (list string) :=
        match l with
        | [] => Some []
        | (k, x) :: l' =>
            match json_key k, json_dumps x, members l' with
            | Some ks, Some s, Some ss =>
                Some ((encode_basestring_ascii ks ++ ": " ++ s) :: ss)
            | _, _, _ => None
            end
        end in
      match members kvs with
      | Some ss => Some ("{" ++ join ", " ss ++ "}")
      | None => None
      end
  end.

Definition dumps (v : pyval) : result pyval :=
  match json_dumps v with
  | Some s => Ok (PStr s)
  | None => Raise TypeError
  end.

(** Iterating a value ([for x in v], [list(v)]). *)
Definition py_iter (v : pyval) : result (list pyval) :=
  match v with
  | PList xs | PTuple xs => Ok xs
  | PStr s => Ok ((fun c => PStr (String c "")) <$> String.list_ascii_of_string s)
  | PBytes bs => Ok ((fun c => PInt (Z.of_N (N_of_ascii c))) <$> bs)
  | PDict kvs => Ok kvs.*1
  | _ => Raise TypeError
  end.

Definition py_list (v : pyval) : result pyval :=
  xs <~ py_iter v ;; Ok (PList xs).

(** ** Type converters *)

Definition TYPE_CONVERTERS : odict pytype (pyval -> result pyval) :=
  dict_of
    [ (STRTYPE, fun x => dumps x);
      (Tstr, fun x => dumps x);
      (UNITYPE, fun x => dumps x);
      (TSequence, fun x => l <~ py_list x ;; dumps l);
      (Tlist, fun x => dumps x);
      (Ttuple, fun x => l <~ py_list x ;; dumps l);
      (Tint, fun x => Ok x);
      (LONGTYPE, fun x => Ok x);
      (Tbool, fun x => match x with
                       | PBool false => Ok (PStr "false")
                       | _ => Ok (PStr "true")
                       end);
      (NONETYPE, fun x => Ok x) ].

(** ** Validation and conversion of query options *)

(** [RESULT_ARG_TYPES[k]] *)
Definition arg_types (k : string) : result (list pytype) :=
  match dict_get k RESULT_ARG_TYPES with
  | Some ts => Ok ts
  | None => Raise (KeyError k)
  end.

Definition is_bool (v : pyval) : bool := bool_decide (type_of v = Tbool).

(** [v == s] for a string literal [s]. *)
Definition py_eq_str (v : pyval) (s : string) : bool :=
  match v with
  | PStr s' => bool_decide (s' = s)
  | _ => false
  end.

(** The loop over the items of a [keys] list. *)
Fixpoint validate_key_list (key_types : list pytype) (vals : list pyval)
  : result unit :=
  match vals with
  | [] => Ok tt
  | key_list_val :: rest =>
      if negb (isinstance key_list_val key_types) || is_bool key_list_val
      then Raise (CloudantArgumentError 134 [ATypes key_types])
      else validate_key_list key_types rest
  end.

Definition py_to_couch_validate (key : string) (val : pyval) : result unit :=
  match dict_get key RESULT_ARG_TYPES with
  | None => Raise (CloudantArgumentError 116 [AStr key])
  | Some types =>
      if negb (isinstance val types)
         || (is_bool val && bool_decide (Tint ∈ types))
      then Raise (CloudantArgumentError 117 [AStr key; ATypes types])
      else
        _ <~ (if decide (key = "keys") then
                vals <~ py_iter val ;;
                key_types <~ arg_types "key" ;;
                validate_key_list key_types vals
              else Ok tt) ;;
        if decide (key = "stale") then
          if negb (py_eq_str val "ok" || py_eq_str val "update_after")
          then Raise (CloudantArgumentError 135 [AVal val])
          else Ok tt
        else Ok tt
  end.

(** Calling [TYPE_CONVERTERS.get(type(val))]: a missing entry is [None],
    and calling [None] raises [TypeError]. *)
Definition call_converter (val : pyval) : result pyval :=
  match dict_get (type_of val) TYPE_CONVERTERS with
  | Some arg_converter => arg_converter val
  | None => Raise TypeError
  end.

Definition passthrough_keys : list string :=
  ["keys"; "endkey_docid"; "startkey_docid"; "stale"].

Definition _py_to_couch_translate (key : string) (val : pyval)
  : result (odict string pyval) :=
  let body :=
    if bool_decide (key ∈ passthrough_keys)
    then Ok [(key, val)]
    else match val with
         | PNone => Ok [(key, PNone)]
         | _ => v <~ call_converter val ;; Ok [(key, v)]
         end in
  match body with
  | Ok d => Ok d
  | Raise ex => Raise (CloudantArgumentError 136 [AStr key; AExn ex])
  end.

(** The spec's names for the argument errors. *)
Definition UnknownOption (e : exn) : Prop :=
  ∃ args, e = CloudantArgumentError 116 args.
Definition InvalidType (e : exn) : Prop :=
  ∃ args, e = CloudantArgumentError 117 args.
Definition InvalidKeyListItem (e : exn) : Prop :=
  ∃ args, e = CloudantArgumentError 134 args.
Definition InvalidStaleValue (e : exn) : Prop :=
  ∃ args, e = CloudantArgumentError 135 args.
Definition ConversionError (e cause : exn) : Prop :=
  ∃ key, e = CloudantArgumentError 136 [AStr key; AExn cause].

(** ** [python_to_couch] on a store of dictionaries

    The caller's [options] and the [translation] the function builds are two
    objects of one store; [python_to_couch] takes the address of the first
    and returns the address of the second. *)

Definition loc : Type := positive.
Abbreviation heap := (gmap loc (odict string pyval)).

(** [translation.update(d)] *)
Definition heap_update (translation : loc) (d : odict string pyval) (h : heap)
  : heap :=
  alter (fun t => dict_update t d) translation h.

Fixpoint translate_items (translation : loc) (items : list (string * pyval))
  (h : heap) : heap * result unit :=
  match items with
  | [] => (h, Ok tt)
  | (key, val) :: rest =>
      match py_to_couch_validate key val with
      | Raise e => (h, Raise e)
      | Ok _ =>
          match _py_to_couch_translate key val with
          | Raise e => (h, Raise e)
          | Ok d => translate_items translation rest (heap_update translation d h)
          end
      end
  end.

Definition python_to_couch (options : loc) (h : heap) : heap * result loc :=
  let translation := fresh (dom h) in
  let h1 := <[translation := []]> h in
  match h1 !! options with
  | None => (h1, Raise AttributeError)
  | Some opts =>
      match translate_items translation opts h1 with
      | (h2, Ok _) => (h2, Ok translation)
      | (h2, Raise e) => (h2, Raise e)
      end
  end.

(** [python_to_couch] applied to a dictionary display: the options are the
    only object of the store, and the result is read back from it. *)
Definition translate (options : list (string * pyval))
  : result (odict string pyval) :=
  match python_to_couch 1%positive {[ 1%positive := dict_of options ]} with
  | (h, Ok t) => match h !! t with
                 | Some d => Ok d
                 | None => Raise AttributeError
                 end
  | (_, Raise e) => Raise e
  end.

(** ** The HTTP transport

    [requests.Session] is the environment of the sessions. A response carries
    its status, its body as [resp.json()] reads it ([None] when the body is
    not JSON) and the cookies it sets. *)

Record response : Type := {
  status_code : Z;
  json_body : option pyval;
  set_cookies : odict string (option Z)
}.

(** [resp.json()] *)
Definition response_json (resp : response) : result pyval :=
  match json_body resp with
  | Some v => Ok v
  | None => Raise ValueError
  end.

(** [resp.raise_for_status()] *)
Definition raise_for_status (resp : response) : result unit :=
  if (400 <=? status_code resp) && (status_code resp <? 600)
  then Raise (HTTPError (status_code resp))
  else Ok tt.

Record http_request : Type := Request {
  method : string;
  url : string;
  timeout : pyval;
  kwargs : odict string pyval
}.

(** What the network does with one request. *)
Inductive outcome : Type :=
| Reply (resp : response)
| Unreachable.

(** Where a request is sent from. *)
Inductive site : Type := InRequest | InLogin | InGetAccessToken.

Inductive event : Type :=
| EvClearExpired
| EvLogin
| EvSend (from : site) (req : http_request).

(** The world a session lives in: the network, which answers the [n]-th
    request sent; the cookie jar (name and expiry time of each cookie); the
    time; and the record of what the session did. *)
Record world : Type := {
  net : nat -> http_request -> outcome;
  exchanges : nat;
  cookies : odict string (option Z);
  now : Z;
  log : list event
}.

(** A session method: it changes the world and returns or raises. *)
Definition M (A : Type) : Type := world -> world * result A.

Definition ret {A : Type} (a : A) : M A := fun w => (w, Ok a).

Definition lift {A : Type} (r : result A) : M A := fun w => (w, r).

Definition bindM {A B : Type} (c : M A) (k : A -> M B) : M B :=
  fun w =>
    match c w with
    | (w', Ok a) => k a w'
    | (w', Raise e) => (w', Raise e)
    end.

Notation "x <<~ c ;; k" := (bindM c (fun x => k))
  (at level 100, c at next level, right associativity).

(** [try: c except ...: handler] where the handler re-raises. *)
Definition try_except {A : Type} (c : M A) (handler : exn -> exn) : M A :=
  fun w =>
    match c w with
    | (w', Ok a) => (w', Ok a)
    | (w', Raise e) => (w', Raise (handler e))
    end.

Definition emit (ev : event) : M unit :=
  fun w =>
    ({| net := net w; exchanges := exchanges w; cookies := cookies w;
        now := now w; log := log w ++ [ev] |}, Ok tt).

(** [extract_cookies_to_jar] of [requests]: each cookie of a response is
    stored in the jar under its name; a cookie whose expiry time is not in
    the future is a request to delete the cookie of that name, and is not
    stored. *)
Definition extract_cookies_to_jar (now : Z)
  (jar set : odict string (option Z)) : odict string (option Z) :=
  foldl (fun acc c =>
           match c.2 with
           | Some t => if t <=? now then dict_del c.1 acc
                       else dict_set c.1 c.2 acc
           | None => dict_set c.1 c.2 acc
           end) jar set.

(** [requests.Session.request]: the request goes out, the cookies of the
    response are taken into the jar. *)
Definition Session_request (from : site) (req : http_request) : M response :=
  fun w =>
    let sent jar :=
      {| net := net w; exchanges := S (exchanges w); cookies := jar;
         now := now w; log := log w ++ [EvSend from req] |} in
    match net w (exchanges w) req with
    | Reply resp =>
        (sent (extract_cookies_to_jar (now w) (cookies w) (set_cookies resp)),
         Ok resp)
    | Unreachable => (sent (cookies w), Raise ConnectionError)
    end.

(** [self.cookies.clear_expired_cookies()] *)
Definition clear_expired_cookies : M unit :=
  fun w =>
    let live (c : string * option Z) : bool :=
      match c.2 with
      | Some t => negb (t <=? now w)
      | None => true
      end in
    ({| net := net w; exchanges := exchanges w;
        cookies := List.filter live (cookies w);
        now := now w; log := log w ++ [EvClearExpired] |}, Ok tt).

(** ** Reading JSON objects *)

Fixpoint py_dict_lookup (key : string) (kvs : list (pyval * pyval))
  : option pyval :=
  match kvs with
  | [] => None
  | (k, v) :: kvs' => if py_eq_str k key then Some v else py_dict_lookup key kvs'
  end.

(** [v.get(key, default)]: only a [dict] has the method. *)
Definition py_get (v : pyval) (key : string) (default : pyval) : result pyval :=
  match v with
  | PDict kvs => Ok (from_option id default (py_dict_lookup key kvs))
  | _ => Raise AttributeError
  end.

(** [v[key]] for a string [key] *)
Definition py_getitem (v : pyval) (key : string) : result pyval :=
  match v with
  | PDict kvs =>
      match py_dict_lookup key kvs with
      | Some x => Ok x
      | None => Raise (KeyError key)
      end
  | _ => Raise TypeError
  end.

(** [len(v)] *)
Definition py_len (v : pyval) : result Z :=
  match v with
  | PList xs | PTuple xs => Ok (Z.of_nat (length xs))
  | PStr s => Ok (Z.of_nat (String.length s))
  | PBytes bs => Ok (Z.of_nat (length bs))
  | PDict kvs => Ok (Z.of_nat (length kvs))
  | _ => Raise TypeError
  end.

(** ** More of Python and of [requests.Session] *)

Section OdictMore.
Context {K V : Type} `{EqDecision K}.

(** [d.pop(k, default)]: the value and what is left of [d]. *)
Definition dict_pop (k : K) (default : V) (d : odict K V) : V * odict K V :=
  (from_option id default (dict_get k d), dict_del k d).

(** [d.setdefault(k, v)], for its effect on [d]. *)
Definition dict_setdefault (k : K) (v : V) (d : odict K V) : odict K V :=
  match dict_get k d with
  | Some _ => d
  | None => d ++ [(k, v)]
  end.

End OdictMore.

(** The truth value of a Python value. *)
Definition py_truthy (v : pyval) : bool :=
  match v with
  | PNone => false
  | PBool b => b
  | PInt n => negb (n =? 0)
  | PStr s => negb (bool_decide (s = ""))
  | PBytes bs => negb (bool_decide (bs = []))
  | PList xs | PTuple xs => negb (bool_decide (length xs = 0%nat))
  | PDict kvs => negb (bool_decide (length kvs = 0%nat))
  end.

Section Str.

(** [str(v)] of a list, tuple, dict or byte string, which is their [repr]. *)
Variable container_str : pyval -> string.

(** [str(v)], as [format] writes a value. *)
Definition py_str (v : pyval) : string :=
  match v with
  | PStr s => s
  | PNone => "None"
  | PBool true => "True"
  | PBool false => "False"
  | PInt n => int_str n
  | _ => container_str v
  end.

End Str.

(** A dictionary with string keys as a Python value. *)
Definition as_dict (d : odict string pyval) : pyval :=
  PDict ((fun kv => (PStr kv.1, kv.2)) <$> d).

(** [requests.Session.get] and [post] of a session whose [request] method is
    [request]: both end in [self.request]. *)
Definition Session_get
  (request : string -> string -> odict string pyval -> M response)
  (url : string) (kwargs : odict string pyval) : M response :=
  request "GET" url (dict_setdefault "allow_redirects" (PBool true) kwargs).

Definition Session_post
  (request : string -> string -> odict string pyval -> M response)
  (url : string) (data json : pyval) (kwargs : odict string pyval)
  : M response :=
  request "POST" url (("data", data) :: ("json", json) :: kwargs).

(** ** ClientSession *)

Module ClientSession.

(** [request(method, url, **kwargs)]: the session's timeout is passed along
    with the caller's keywords, so a [timeout] among them is a [TypeError]. *)
Definition request (_timeout : pyval) (from : site)
  (method url : string) (kwargs : odict string pyval) : M response :=
  match dict_get "timeout" kwargs with
  | Some _ => lift (Raise TypeError)
  | None => Session_request from (Request method url _timeout kwargs)
  end.

End ClientSession.

(** ** CookieSession *)

Module CookieSession.

Record t : Type := {
  _username : string;
  _password : string;
  _auto_renew : bool;
  _session_url : string;
  _timeout : pyval
}.

Definition login_kwargs (self : t) : odict string pyval :=
  [("data", PDict [(PStr "name", PStr (_username self));
                   (PStr "password", PStr (_password self))])].

Definition login (self : t) : M unit :=
  _ <<~ emit EvLogin ;;
  resp <<~ ClientSession.request (_timeout self) InLogin
             "POST" (_session_url self) (login_kwargs self) ;;
  lift (raise_for_status resp).

Definition is_expired (resp : response) : result bool :=
  credentials_expired <~
    (if status_code resp =? 403 then
       body <~ response_json resp ;;
       error <~ py_get body "error" PNone ;;
       Ok (py_eq_str error "credentials_expired")
     else Ok false) ;;
  Ok (credentials_expired || (status_code resp =? 401)).

Definition request (self : t) (method url : string)
  (kwargs : odict string pyval) : M response :=
  resp <<~ ClientSession.request (_timeout self) InRequest method url kwargs ;;
  if negb (_auto_renew self) then ret resp
  else
    expired <<~ lift (is_expired resp) ;;
    if expired : bool then
      _ <<~ login self ;;
      ClientSession.request (_timeout self) InRequest method url kwargs
    else ret resp.

(** [info()]: [self.get] goes through [request] above. *)
Definition info (self : t) : M pyval :=
  resp <<~ Session_get (request self) (_session_url self) [] ;;
  _ <<~ lift (raise_for_status resp) ;;
  lift (response_json resp).

Section Init.

(** Modelled from the spec: [url_join] of [cloudant._2to3], which the source
    tree does not hold; the spec writes the session URL [{base}/_session]. *)
Variable url_join : string -> string -> string.

(** [__init__(username, password, server_url, **kwargs)] *)
Definition init (username password server_url : string)
  (kwargs : odict string pyval) : t :=
  {| _username := username;
     _password := password;
     _auto_renew :=
       py_truthy (from_option id (PBool false) (dict_get "auto_renew" kwargs));
     _session_url := url_join server_url "_session";
     _timeout := from_option id PNone (dict_get "timeout" kwargs) |}.

End Init.

End CookieSession.

(** ** IAMSession *)

Module IAMSession.

Record t : Type := {
  _api_key : string;
  _auto_renew : bool;
  _session_url : string;
  _token_url : string;
  _timeout : pyval
}.

Definition token_kwargs (self : t) : odict string pyval :=
  [("auth", PTuple [PStr "bx"; PStr "bx"]);
   ("headers", PDict [(PStr "Accepts", PStr "application/json")]);
   ("data", PDict
      [(PStr "grant_type", PStr "urn:ibm:params:oauth:grant-type:apikey");
       (PStr "response_type", PStr "cloud_iam");
       (PStr "apikey", PStr (_api_key self))])].

Definition contact_failed : pyval := PStr "Failed to contact IAM token service".
Definition invalid_response : pyval :=
  PStr "Invalid response from IAM token service".
Definition exchange_failed : pyval :=
  PStr "Failed to exchange IAM token with Cloudant".

(** The two [except] clauses of [_get_access_token]; [err] is the message
    held when the exception was raised. *)
Definition token_handler (err : pyval) (e : exn) : exn :=
  match e with
  | KeyError _ => CloudantException invalid_response
  | _ => if is_RequestException e then CloudantException err else e
  end.

Definition _get_access_token (self : t) : M pyval :=
  fun w =>
    let err := contact_failed in
    match ClientSession.request (_timeout self) InGetAccessToken
            "POST" (_token_url self) (token_kwargs self) w with
    | (w', Raise e) => (w', Raise (token_handler err e))
    | (w', Ok resp) =>
        match (body <~ response_json resp ;; py_get body "errorMessage" err) with
        | Raise e => (w', Raise (token_handler err e))
        | Ok err =>
            match (_ <~ raise_for_status resp ;;
                   body <~ response_json resp ;;
                   py_getitem body "access_token") with
            | Raise e => (w', Raise (token_handler err e))
            | Ok access_token => (w', Ok access_token)
            end
        end
    end.

Definition exchange_kwargs (data : pyval) : odict string pyval :=
  [("headers", PDict [(PStr "Content-Type", PStr "application/json")]);
   ("data", data)].

Definition login (self : t) : M unit :=
  _ <<~ emit EvLogin ;;
  access_token <<~ _get_access_token self ;;
  try_except
    (data <<~ lift (dumps (PDict [(PStr "access_token", access_token)])) ;;
     resp <<~ ClientSession.request (_timeout self) InLogin
                "POST" (_session_url self) (exchange_kwargs data) ;;
     lift (raise_for_status resp))
    (fun e => if is_RequestException e
              then CloudantException exchange_failed else e).

Definition request (self : t) (method url : string)
  (kwargs : odict string pyval) : M response :=
  _ <<~ clear_expired_cookies ;;
  _ <<~ (fun w =>
           if _auto_renew self
              && negb (bool_decide ("IAMSession" ∈ keys (cookies w)))
           then login self w else ret tt w) ;;
  resp <<~ ClientSession.request (_timeout self) InRequest method url kwargs ;;
  if negb (_auto_renew self) then ret resp
  else if status_code resp =? 401 then
    _ <<~ login self ;;
    ClientSession.request (_timeout self) InRequest method url kwargs
  else ret resp.

Definition info (self : t) : M pyval :=
  resp <<~ Session_get (request self) (_session_url self) [] ;;
  _ <<~ lift (raise_for_status resp) ;;
  lift (response_json resp).

(** [logout()]: [self.cookies.clear()] *)
Definition logout : M unit :=
  fun w =>
    ({| net := net w; exchanges := exchanges w; cookies := [];
        now := now w; log := log w |}, Ok tt).

Section Init.

(** Modelled from the spec: [url_join] of [cloudant._2to3], which the source
    tree does not hold; the spec writes the session URL
    [{base}/_iam_session]. *)
Variable url_join : string -> string -> string.

(** [os.environ] *)
Variable environ : odict string string.

(** [__init__(api_key, server_url, **kwargs)] *)
Definition init (api_key server_url : string) (kwargs : odict string pyval)
  : t :=
  {| _api_key := api_key;
     _auto_renew :=
       py_truthy (from_option id (PBool false) (dict_get "auto_renew" kwargs));
     _session_url := url_join server_url "_iam_session";
     _token_url :=
       from_option id "https://iam.bluemix.net/oidc/token"
         (dict_get "IAM_TOKEN_URL" environ);
     _timeout := from_option id PNone (dict_get "timeout" kwargs) |}.

End Init.

End IAMSession.

(** ** CloudFoundryService *)

Module CloudFoundryService.

Record t : Type := {
  _host : pyval;
  _name : pyval;
  _password : pyval;
  _port : pyval;
  _username : pyval
}.

Definition missing_service : exn :=
  CloudantException (PStr "Missing service in VCAP_SERVICES").

(** [v == name] where [name] is a string or [None]. *)
Definition eq_name (v : pyval) (name : option string) : bool :=
  match name with
  | Some s => py_eq_str v s
  | None => bool_decide (type_of v = TNoneType)
  end.

(** The [for ... else] loop over the listed services. *)
Fixpoint select (use_first : bool) (name : option string)
  (cloudant_services : list pyval) : result t :=
  match cloudant_services with
  | [] => Raise missing_service
  | service :: rest =>
      found <~ (if use_first then Ok true
                else n <~ py_get service "name" PNone ;; Ok (eq_name n name)) ;;
      if found : bool then
        credentials <~ py_getitem service "credentials" ;;
        host <~ py_getitem credentials "host" ;;
        sname <~ py_get service "name" PNone ;;
        password <~ py_getitem credentials "password" ;;
        port <~ py_get credentials "port" (PInt 443) ;;
        username <~ py_getitem credentials "username" ;;
        Ok {| _host := host; _name := sname; _password := password;
              _port := port; _username := username |}
      else select use_first name rest
  end.

Definition quote1 : string := String "039"%char EmptyString.

(** The three [except] clauses of the constructor. *)
Definition init_handler (e : exn) : exn :=
  match e with
  | KeyError k =>
      CloudantException
        (PStr ("Invalid service: " ++ quote1 ++ k ++ quote1 ++ " missing"))
  | TypeError =>
      CloudantException
        (PStr "Failed to decode VCAP_SERVICES service credentials")
  | ValueError => CloudantException (PStr "Failed to decode VCAP_SERVICES JSON")
  | _ => e
  end.

Section Init.

(** [json.loads] on the text of the environment variable; it raises
    [ValueError] on text that is not JSON. *)
Variable json_loads : string -> option pyval.

Definition loads (v : pyval) : result pyval :=
  match v with
  | PStr s => match json_loads s with
              | Some x => Ok x
              | None => Raise ValueError
              end
  | PBytes bs => match json_loads (String.string_of_list_ascii bs) with
                 | Some x => Ok x
                 | None => Raise ValueError
                 end
  | _ => Raise TypeError
  end.

Definition init (vcap_services : pyval) (name : option string) : result t :=
  let body :=
    services <~ (match vcap_services with
                 | PDict _ => Ok vcap_services
                 | _ => loads vcap_services
                 end) ;;
    cloudant_services <~ py_get services "cloudantNoSQLDB" (PList []) ;;
    use_first <~ (match name with
                  | None => n <~ py_len cloudant_services ;; Ok (n =? 1)
                  | Some _ => Ok false
                  end) ;;
    listed <~ py_iter cloudant_services ;;
    select use_first name listed in
  match body with
  | Ok self => Ok self
  | Raise e => Raise (init_handler e)
  end.

End Init.

Section Properties.

Variable container_str : pyval -> string.

Definition host (self : t) : pyval := _host self.
Definition name (self : t) : pyval := _name self.
Definition password (self : t) : pyval := _password self.
Definition username (self : t) : pyval := _username self.

(** [str(self._port)] *)
Definition port (self : t) : string := py_str container_str (_port self).

(** ['https://{0}:{1}'.format(self._host, self._port)] *)
Definition url (self : t) : string :=
  "https://" ++ py_str container_str (_host self) ++ ":"
  ++ py_str container_str (_port self).

End Properties.

End CloudFoundryService.

(** ** Helpers of the module *)

(** [type_or_none(typerefs, value)] *)
Definition type_or_none (typerefs : list pytype) (value : pyval) : bool :=
  isinstance value typerefs || bool_decide (type_of value = TNoneType).

(** What [codify] is given: [None], a string, or a [_Code] object, which is
    a string of its own class. *)
Inductive code_or_str : Type :=
| NoCode
| PlainStr (s : string)
| _Code (s : string).

Definition codify (c : code_or_str) : code_or_str :=
  match c with
  | NoCode => NoCode
  | PlainStr s => _Code s
  | _Code s => _Code s
  end.

(** [json.dumps(v, cls=encoder)]: a custom encoder is the function it
    computes; without one it is [json_dumps]. *)
Definition dumps_with (encoder : option (pyval -> option string)) (v : pyval)
  : result pyval :=
  match from_option id json_dumps encoder v with
  | Some s => Ok (PStr s)
  | None => Raise TypeError
  end.

(** [get_docs(r_session, url, encoder, headers, **params)], for a session
    whose [request] method is [r_session]. *)
Definition get_docs
  (r_session : string -> string -> odict string pyval -> M response)
  (url : string) (encoder : option (pyval -> option string))
  (headers : option (odict string pyval)) (params : odict string pyval)
  : M response :=
  let keys_list := (dict_pop "keys" PNone params).1 in
  let params := (dict_pop "keys" PNone params).2 in
  keys <<~ lift (match keys_list with
                 | PNone => Ok PNone
                 | _ => dumps_with encoder (PDict [(PStr "keys", keys_list)])
                 end) ;;
  f_params <<~ lift (translate params) ;;
  resp <<~ (match keys with
            | PNone =>
                Session_get r_session url
                  [("headers", from_option as_dict PNone headers);
                   ("params", as_dict f_params)]
            | _ =>
                let headers :=
                  dict_set "Content-Type" (PStr "application/json")
                    (from_option id [] headers) in
                Session_post r_session url keys PNone
                  [("headers", as_dict headers); ("params", as_dict f_params)]
            end) ;;
  _ <<~ lift (raise_for_status resp) ;;
  ret resp.

Section ErrorContent.

Variable container_str : pyval -> string.

(** [append_response_error_content(response)], for its effect on
    [response.reason]: the new reason. *)
Definition append_response_error_content (resp : response) (reason : string)
  : result string :=
  if 400 <=? status_code resp then
    let body :=
      resp_dict <~ response_json resp ;;
      error <~ py_get resp_dict "error" (PStr "") ;;
      reason' <~ py_get resp_dict "reason" (PStr "") ;;
      Ok (reason ++ " " ++ py_str container_str error ++ " "
          ++ py_str container_str reason') in
    match body with
    | Raise ValueError => Ok reason
    | r => r
    end
  else Ok reason.

End ErrorContent.

(** * Vocabulary of the properties and example inputs *)

(** A value of each class. *)
Definition sample (ty : pytype) : pyval :=
  match ty with
  | Tbool => PBool true
  | Tint => PInt 5
  | Tstr => PStr "ok"
  | TNoneType => PNone
  | Tbytes => PBytes []
  | Tlist => PList []
  | Ttuple | TSequence => PTuple []
  | Tdict => PDict []
  end.

(** The constraint on one item of a [keys] list: what the [key] option
    accepts, and no boolean. *)
Definition key_item_ok (x : pyval) : Prop :=
  py_to_couch_validate "key" x = Ok tt ∧ is_bool x = false.

(** An entry that passes validation and conversion. *)
Definition entry_ok (kv : string * pyval) : Prop :=
  py_to_couch_validate kv.1 kv.2 = Ok tt
  ∧ ∃ d, _py_to_couch_translate kv.1 kv.2 = Ok d.

(** Example networks and sessions. *)
Definition reply (status : Z) (body : option pyval) : outcome :=
  Reply {| status_code := status; json_body := body; set_cookies := [] |}.

Definition world_of (network : nat -> http_request -> outcome)
  (jar : odict string (option Z)) : world :=
  {| net := network; exchanges := 0; cookies := jar; now := 1000; log := [] |}.

(** Every request is answered 401. *)
Definition always_401 : nat -> http_request -> outcome :=
  fun _ _ => reply 401 None.

(** The first request is answered 401, the later ones 200. *)
Definition expired_once : nat -> http_request -> outcome :=
  fun n _ => match n with
             | O => reply 401 None
             | _ => reply 200 (Some (PDict [(PStr "ok", PBool true)]))
             end.

Definition alice : CookieSession.t :=
  {| CookieSession._username := "alice";
     CookieSession._password := "secret";
     CookieSession._auto_renew := true;
     CookieSession._session_url := "https://db.example/_session";
     CookieSession._timeout := PNone |}.

Definition docs_url : string := "https://db.example/db/_all_docs".

(** The condition under which [CookieSession.request] renews the cookie. *)
Definition credentials_expired (resp : response) : Prop :=
  status_code resp = 401
  ∨ (status_code resp = 403
     ∧ ∃ kvs, json_body resp = Some (PDict kvs)
              ∧ py_dict_lookup "error" kvs = Some (PStr "credentials_expired")).

Definition login_request (self : CookieSession.t) : http_request :=
  Request "POST" (CookieSession._session_url self)
    (CookieSession._timeout self) (CookieSession.login_kwargs self).

Definition token_request (self : IAMSession.t) : http_request :=
  Request "POST" (IAMSession._token_url self) (IAMSession._timeout self)
    (IAMSession.token_kwargs self).

(** The world once the expired cookies are gone. *)
Definition cleared (w : world) : world := (clear_expired_cookies w).1.

Definition holds_session_cookie (w : world) : Prop :=
  "IAMSession" ∈ keys (cookies w).

(** What [login()] sends on its own account. *)
Definition internal (ev : event) : Prop :=
  match ev with
  | EvSend InLogin _ | EvSend InGetAccessToken _ => True
  | _ => False
  end.

(** How often a record shows the request sent, and [login()] called. *)
Fixpoint issues (l : list event) : nat :=
  match l with
  | [] => 0
  | EvSend InRequest _ :: l' => S (issues l')
  | _ :: l' => issues l'
  end.

Fixpoint logins (l : list event) : nat :=
  match l with
  | [] => 0
  | EvLogin :: l' => S (logins l')
  | _ :: l' => logins l'
  end.

(** The world in which [IAMSession.request] makes its first attempt: the
    cleared world, or the world a successful [login()] leaves. *)
Definition first_attempt_world (self : IAMSession.t) (w w1 : world) : Prop :=
  if IAMSession._auto_renew self
     && negb (bool_decide (holds_session_cookie (cleared w)))
  then IAMSession.login self (cleared w) = (w1, Ok tt)
  else w1 = cleared w.

Definition svc : IAMSession.t :=
  {| IAMSession._api_key := "apikey";
     IAMSession._auto_renew := true;
     IAMSession._session_url := "https://db.example/_iam_session";
     IAMSession._token_url := "https://iam.bluemix.net/oidc/token";
     IAMSession._timeout := PNone |}.

(** The database answers 401 and the token service cannot be reached. *)
Definition token_service_down : nat -> http_request -> outcome :=
  fun _ req =>
    if bool_decide (url req = IAMSession._token_url svc) then Unreachable
    else reply 401 None.

(** The token service hands out a token, the database accepts it, sets the
    session cookie and answers 200. *)
Definition iam_ok : nat -> http_request -> outcome :=
  fun _ req =>
    if bool_decide (url req = IAMSession._token_url svc) then
      reply 200 (Some (PDict [(PStr "access_token", PStr "tok")]))
    else if bool_decide (url req = IAMSession._session_url svc) then
      Reply {| status_code := 200; json_body := None;
               set_cookies := [("IAMSession", Some 5000)] |}
    else reply 200 None.

(** The token service answers 200 with a body that is no JSON object. *)
Definition token_service_array : nat -> http_request -> outcome :=
  fun _ _ => reply 200 (Some (PList [])).

Definition http_error (status : Z) : bool :=
  (400 <=? status) && (status <? 600).

Definition credentials_of (host : string) : pyval :=
  PDict [(PStr "host", PStr host);
         (PStr "username", PStr "user");
         (PStr "password", PStr "pw")].

(** A listed service with no [name] entry. *)
Definition unnamed_service : pyval :=
  PDict [(PStr "credentials", credentials_of "a.example")].

Definition named_service (n : string) : pyval :=
  PDict [(PStr "name", PStr n);
         (PStr "credentials", credentials_of (n ++ ".example"))].

Definition vcap (services : list pyval) : pyval :=
  PDict [(PStr "cloudantNoSQLDB", PList services)].

(** An entry of the options and the entry of the translation it gives. *)
Definition converted (kv kv' : string * pyval) : Prop :=
  kv'.1 = kv.1
  ∧ py_to_couch_validate kv.1 kv.2 = Ok tt
  ∧ _py_to_couch_translate kv.1 kv.2 = Ok [kv'].

(** A request in the record carries the timeout [t]. *)
Definition carries (t : pyval) (ev : event) : Prop :=
  match ev with
  | EvSend _ req => timeout req = t
  | _ => True
  end.

(** A session method is [steady] for [P] when it leaves the network and the
    clock alone and adds to the record only events that satisfy [P]. *)
Definition steady (P : event -> Prop) {A : Type} (c : M A) : Prop :=
  ∀ w w' r, c w = (w', r) ->
    net w' = net w ∧ now w' = now w
    ∧ ∃ new, log w' = (log w ++ new)%list ∧ Forall P new.

(** What [CookieSession.request] may send for the request [req]: the
    request itself, and the login of the session. *)
Definition cookie_traffic (self : CookieSession.t) (req : http_request)
  (ev : event) : Prop :=
  ev = EvLogin
  ∨ ev = EvSend InRequest req
  ∨ ev = EvSend InLogin (login_request self).

(** What [IAMSession.request] may send for the request [req]: the request
    itself, the token request with the API key to the token URL, and the
    exchange of a token at the session URL. *)
Definition iam_traffic (self : IAMSession.t) (req : http_request)
  (ev : event) : Prop :=
  ev = EvClearExpired
  ∨ ev = EvLogin
  ∨ ev = EvSend InRequest req
  ∨ ev = EvSend InGetAccessToken (token_request self)
  ∨ ∃ data, ev = EvSend InLogin
                   (Request "POST" (IAMSession._session_url self)
                      (IAMSession._timeout self)
                      (IAMSession.exchange_kwargs data)).

(** The listed service [service] has the entries the constructor reads, and
    [self] holds them. *)
Definition describes (service : pyval) (self : CloudFoundryService.t) : Prop :=
  ∃ skvs ckvs,
    service = PDict skvs
    ∧ py_dict_lookup "credentials" skvs = Some (PDict ckvs)
    ∧ py_dict_lookup "host" ckvs = Some (CloudFoundryService._host self)
    ∧ py_dict_lookup "password" ckvs = Some (CloudFoundryService._password self)
    ∧ py_dict_lookup "username" ckvs = Some (CloudFoundryService._username self)
    ∧ CloudFoundryService._port self
      = from_option id (PInt 443) (py_dict_lookup "port" ckvs)
    ∧ CloudFoundryService._name self
      = from_option id PNone (py_dict_lookup "name" skvs).

(** A listed service that is a dict and whose [name] is not [name]. *)
Definition other_name (name : option string) (service : pyval) : Prop :=
  ∃ skvs, service = PDict skvs
          ∧ CloudFoundryService.eq_name
              (from_option id PNone (py_dict_lookup "name" skvs)) name
            = false.

(** The loop of the constructor stops at the service [PDict skvs] of the
    list [pre ++ PDict skvs :: post]: it is the only one and no name is
    given, or it is the first whose [name] is [name]. *)
Definition selects (name : option string) (pre : list pyval)
  (skvs : list (pyval * pyval)) (post : list pyval) : Prop :=
  (name = None ∧ pre = [] ∧ post = [])
  ∨ (Forall (other_name name) pre
     ∧ CloudFoundryService.eq_name
         (from_option id PNone (py_dict_lookup "name" skvs)) name
       = true).

(** The first of the required entries that the credentials lack. *)
Definition first_missing (ckvs : list (pyval * pyval)) : option string :=
  List.find (fun k => bool_decide (py_dict_lookup k ckvs = None))
    ["host"; "password"; "username"].

(** The message of the constructor for a missing entry. *)
Definition invalid_service (k : string) : exn :=
  CloudantException
    (PStr ("Invalid service: " ++ CloudFoundryService.quote1 ++ k
           ++ CloudFoundryService.quote1 ++ " missing")).

(** The bytes of a byte string, as [list] yields them. *)
Definition byte_values (bs : list ascii) : list pyval :=
  (fun c => PInt (Z.of_N (N_of_ascii c))) <$> bs.

(** * Properties *)

(** A closed decidable fact, settled by evaluation. *)
Ltac decided := refine (bool_decide_unpack _ _); vm_compute; exact I.

(** The goal [∃ e, r = Raise e ∧ P e] where [P] is one of the spec's names
    for an argument error. *)
Ltac argument_error := eexists; split; [reflexivity | by eexists].

(** ** Dictionaries *)

Section OdictFacts.
Context {K V : Type} `{EqDecision K}.

Lemma keys_dict_set (k : K) (v : V) (d : odict K V) :
  keys (dict_set k v d)
  = if bool_decide (k ∈ keys d) then keys d else (keys d ++ [k])%list.
Proof.
  unfold keys. induction d as [|[k' v'] d IH].
  - case_bool_decide as Hin; [by apply elem_of_nil in Hin | done].
  - cbn [dict_set]. destruct (decide (k = k')) as [->|Hne].
    + rewrite bool_decide_eq_true_2; [done | apply list_elem_of_here].
    + rewrite fmap_cons, IH, fmap_cons. cbn [fst].
      case_bool_decide as Hin.
      * rewrite bool_decide_eq_true_2; [done | by apply list_elem_of_further].
      * rewrite bool_decide_eq_false_2; [done |].
        intros Hin'. apply elem_of_cons in Hin' as [?|?]; [congruence | done].
Qed.

Lemma dict_get_Some_elem (k : K) (v : V) (d : odict K V) :
  dict_get k d = Some v -> (k, v) ∈ d.
Proof.
  induction d as [|[k' v'] d IH]; simpl; [done |].
  destruct (decide (k = k')) as [->|Hne].
  - intros [= ->]. apply list_elem_of_here.
  - intros Hd. apply list_elem_of_further. by apply IH.
Qed.

Lemma dict_get_None_keys (k : K) (d : odict K V) :
  dict_get k d = None <-> k ∉ keys d.
Proof.
  unfold keys. induction d as [|[k' v'] d IH]; simpl.
  - split; [intros _; apply not_elem_of_nil | done].
  - destruct (decide (k = k')) as [->|Hne].
    + split; [done | intros Hn; exfalso; apply Hn, list_elem_of_here].
    + rewrite IH. rewrite elem_of_cons. tauto.
Qed.

End OdictFacts.

(** ** The feed tables *)

(** C9: the keys of the CouchDB table are all keys of the Cloudant table,
    and the Cloudant table has a key ([since]) that the CouchDB table does
    not have. *)
Theorem feed_arg_types_Cloudant_strict_superset :
  keys (feed_arg_types "CouchDB") ⊆ keys (feed_arg_types "Cloudant")
  ∧ ∃ k, k ∈ keys (feed_arg_types "Cloudant")
         ∧ k ∉ keys (feed_arg_types "CouchDB").
Proof.
  split.
  - intros k Hk. vm_compute in Hk.
    repeat (apply elem_of_cons in Hk as [->|Hk]);
      [ | | | by apply elem_of_nil in Hk ];
      decided.
  - exists "since". split; decided.
Qed.

(** ** Conversion *)

Lemma json_dumps_tuple (xs : list pyval) :
  json_dumps (PTuple xs) = json_dumps (PList xs).
Proof. reflexivity. Qed.

Lemma translate_not_passthrough (key : string) (val : pyval) :
  key ∉ passthrough_keys ->
  val ≠ PNone ->
  _py_to_couch_translate key val =
    match call_converter val with
    | Ok v => Ok [(key, v)]
    | Raise ex => Raise (CloudantArgumentError 136 [AStr key; AExn ex])
    end.
Proof.
  intros Hkey Hval. unfold _py_to_couch_translate.
  rewrite bool_decide_eq_false_2 by done.
  destruct val; try done; cbn [bind]; by destruct (call_converter _).
Qed.

(** C8: the four pass-through keys keep the value as it is, whatever its
    class; under any other key [None] stays [None]. Both rules come before
    the converter of the value's class is looked up. *)
Theorem passthrough_then_null_first :
  (∀ key val, key ∈ passthrough_keys ->
     _py_to_couch_translate key val = Ok [(key, val)])
  ∧ (∀ key, key ∉ passthrough_keys ->
       _py_to_couch_translate key PNone = Ok [(key, PNone)])
  ∧ passthrough_keys = ["keys"; "endkey_docid"; "startkey_docid"; "stale"].
Proof.
  split; [|split; [|reflexivity]].
  - intros key val Hkey. unfold _py_to_couch_translate.
    by rewrite bool_decide_eq_true_2.
  - intros key Hkey. unfold _py_to_couch_translate.
    by rewrite bool_decide_eq_false_2.
Qed.

Lemma passthrough_then_null_first_witness :
  _py_to_couch_translate "stale" (PStr "ok") = Ok [("stale", PStr "ok")]
  ∧ _py_to_couch_translate "limit" PNone = Ok [("limit", PNone)].
Proof.
  split.
  - apply (proj1 passthrough_then_null_first "stale" (PStr "ok")).
    decided.
  - apply (proj1 (proj2 passthrough_then_null_first) "limit").
    decided.
Defined.

(** What the conversion does, class by class. Under a key that is not
    passed through, a value that is not [None] is converted by its class: a
    string, a list and a tuple are replaced by their JSON text (a failure of
    the serializer is wrapped in error 136); a boolean becomes the string
    [true] or [false]; an integer stays the integer it is; a value of any
    other class fails with error 136 wrapping the [TypeError]. The three
    translations the spec lists hold. *)
Theorem convert_by_runtime_type :
  (∀ key val, key ∉ passthrough_keys -> val ≠ PNone ->
     _py_to_couch_translate key val =
       match val with
       | PStr s => Ok [(key, PStr (encode_basestring_ascii s))]
       | PList _ | PTuple _ =>
           match json_dumps val with
           | Some s => Ok [(key, PStr s)]
           | None => Raise (CloudantArgumentError 136 [AStr key; AExn TypeError])
           end
       | PBool b => Ok [(key, PStr (if b then "true" else "false"))]
       | PInt n => Ok [(key, PInt n)]
       | _ => Raise (CloudantArgumentError 136 [AStr key; AExn TypeError])
       end)
  ∧ (∀ key val e, _py_to_couch_translate key val = Raise e ->
       ∃ cause, ConversionError e cause)
  ∧ translate [("include_docs", PBool true)] = Ok [("include_docs", PStr "true")]
  ∧ translate [("limit", PInt 5)] = Ok [("limit", PInt 5)]
  ∧ translate [("key", PStr "foo")]
    = Ok [("key", PStr (String quote_char ("foo" ++ String quote_char "")))].
Proof.
  split; [|split; [|by vm_compute]].
  - intros key val Hkey Hval. rewrite translate_not_passthrough by done.
    destruct val as [|[]| | | |xs|xs|]; try done.
    + unfold call_converter. cbn [type_of]. change (dict_get Tlist TYPE_CONVERTERS)
        with (Some (fun x : pyval => dumps x)). unfold dumps.
      by destruct (json_dumps (PList xs)).
    + unfold call_converter. cbn [type_of]. change (dict_get Ttuple TYPE_CONVERTERS)
        with (Some (fun x : pyval => l <~ py_list x ;; dumps l)).
      cbn [py_list py_iter bind]. unfold dumps. rewrite json_dumps_tuple.
      by destruct (json_dumps (PList xs)).
  - intros key val e. unfold _py_to_couch_translate.
    case_bool_decide; [done |].
    destruct val; try done; cbn [bind];
      destruct (call_converter _); try done; intros [= <-]; by eexists _, _.
Qed.

Lemma convert_by_runtime_type_witness :
  _py_to_couch_translate "key" (PTuple [PInt 1; PStr "a"])
  = Ok [("key", PStr (String "[" ("1, " ++ String quote_char ("a"
      ++ String quote_char "]"))))]
  ∧ _py_to_couch_translate "key" (PBytes [])
    = Raise (CloudantArgumentError 136 [AStr "key"; AExn TypeError]).
Proof.
  split.
  - apply (proj1 convert_by_runtime_type "key" (PTuple [PInt 1; PStr "a"])).
    + decided.
    + discriminate.
  - apply (proj1 convert_by_runtime_type "key" (PBytes [])).
    + decided.
    + discriminate.
Defined.

Lemma json_dumps_byte_values (bs : list ascii) :
  is_Some (json_dumps (PList (byte_values bs))).
Proof.
  cbn [json_dumps].
  match goal with
  | |- context [match ?items (byte_values bs) with _ => _ end] =>
      assert (is_Some (items (byte_values bs))) as [ss Hss]
  end.
  { induction bs as [|c bs [ss IH]]; [by eexists|].
    cbn [byte_values fmap list_fmap json_dumps].
    unfold byte_values in IH. rewrite IH. by eexists. }
  rewrite Hss. by eexists.
Qed.

(** C2 fails on the code for a sequence that is neither a list nor a tuple.
    A byte string is a sequence: under [key], [startkey] and [endkey] it
    passes validation, and the converter that [TYPE_CONVERTERS] holds for
    [Sequence] writes it as the JSON list of its bytes. But the converter is
    looked up under the class of the value itself, which is never
    [Sequence]: no value reaches that entry, and the byte string is not
    serialized but fails with error 136. *)
Theorem sequence_converter_never_reached :
  (∀ val, type_of val ≠ TSequence)
  ∧ (∀ key bs, key ∈ ["key"; "startkey"; "endkey"] ->
       isinstance (PBytes bs) [TSequence] = true
       ∧ py_to_couch_validate key (PBytes bs) = Ok tt
       ∧ (∃ convert,
            dict_get TSequence TYPE_CONVERTERS = Some convert
            ∧ convert (PBytes bs) = dumps (PList (byte_values bs))
            ∧ ∃ text, dumps (PList (byte_values bs)) = Ok (PStr text))
       ∧ _py_to_couch_translate key (PBytes bs)
         = Raise (CloudantArgumentError 136 [AStr key; AExn TypeError])
       ∧ translate [(key, PBytes bs)]
         = Raise (CloudantArgumentError 136 [AStr key; AExn TypeError])).
Proof.
  split; [by intros []|].
  intros key bs Hkey.
  assert (∃ text, dumps (PList (byte_values bs)) = Ok (PStr text)) as Hdumps.
  { unfold dumps. destruct (json_dumps_byte_values bs) as [text ->].
    by eexists. }
  repeat (apply elem_of_cons in Hkey as [->|Hkey]);
    [| | |by apply elem_of_nil in Hkey];
    (split; [reflexivity|]; split; [reflexivity|]; split;
     [eexists; split; [reflexivity|]; split; [reflexivity | exact Hdumps]|];
     split; reflexivity).
Qed.

Lemma sequence_converter_never_reached_witness :
  py_to_couch_validate "key" (PBytes ["a"%char; "b"%char]) = Ok tt
  ∧ (∃ convert, dict_get TSequence TYPE_CONVERTERS = Some convert
                ∧ convert (PBytes ["a"%char; "b"%char])
                  = Ok (PStr "[97, 98]"))
  ∧ translate [("key", PBytes ["a"%char; "b"%char])]
    = Raise (CloudantArgumentError 136 [AStr "key"; AExn TypeError]).
Proof.
  destruct (proj2 sequence_converter_never_reached "key"
              ["a"%char; "b"%char] ltac:(apply list_elem_of_here))
    as (_ & Hv & (convert & Hget & Hconv & _) & _ & Ht).
  split; [exact Hv|]. split; [|exact Ht].
  exists convert. split; [exact Hget|]. rewrite Hconv. reflexivity.
Defined.

(** The remaining translations the spec lists. *)
Example translate_stale_ok :
  translate [("stale", PStr "ok")] = Ok [("stale", PStr "ok")].
Proof. by vm_compute. Qed.

Example translate_stale_bogus :
  ∃ e, translate [("stale", PStr "bogus")] = Raise e ∧ InvalidStaleValue e.
Proof. eexists; split; [by vm_compute | by eexists]. Qed.

Example translate_bogus_key :
  ∃ e, translate [("bogus_key", PInt 1)] = Raise e ∧ UnknownOption e.
Proof. eexists; split; [by vm_compute | by eexists]. Qed.

(** The first entry that fails decides the error. *)
Example translate_first_error :
  ∃ e, translate [("skip", PBool true); ("bogus_key", PInt 1)] = Raise e
       ∧ InvalidType e.
Proof. eexists; split; [by vm_compute | by eexists]. Qed.

(** ** Validation *)

Lemma RESULT_ARG_TYPES_declared (key : string) (types : list pytype) :
  dict_get key RESULT_ARG_TYPES = Some types ->
  (key, types) ∈ RESULT_ARG_TYPES.
Proof. apply dict_get_Some_elem. Qed.

Lemma validate_key_list_Ok (key_types : list pytype) (vals : list pyval) :
  validate_key_list key_types vals = Ok tt
  <-> Forall (fun x => isinstance x key_types = true ∧ is_bool x = false) vals.
Proof.
  induction vals as [|x vals IH]; cbn [validate_key_list].
  - split; [constructor | done].
  - rewrite Forall_cons, <- IH.
    destruct (isinstance x key_types), (is_bool x); cbn; intuition congruence.
Qed.

Lemma validate_key_list_Raise (key_types : list pytype) (vals : list pyval)
  (e : exn) :
  validate_key_list key_types vals = Raise e ->
  e = CloudantArgumentError 134 [ATypes key_types].
Proof.
  induction vals as [|x vals IH]; cbn [validate_key_list]; [done |].
  destruct (negb _ || _); [by intros [= <-] | done].
Qed.

Lemma validate_key_list_total (key_types : list pytype) (vals : list pyval) :
  validate_key_list key_types vals = Ok tt
  ∨ validate_key_list key_types vals
    = Raise (CloudantArgumentError 134 [ATypes key_types]).
Proof.
  destruct (validate_key_list key_types vals) as [[]|e] eqn:E; [by left |].
  right. by rewrite (validate_key_list_Raise _ _ _ E).
Qed.

(** What [py_to_couch_validate] does once the key is known to the table. *)
Lemma validate_declared (key : string) (types : list pytype) (val : pyval) :
  dict_get key RESULT_ARG_TYPES = Some types ->
  py_to_couch_validate key val =
    if negb (isinstance val types) || (is_bool val && bool_decide (Tint ∈ types))
    then Raise (CloudantArgumentError 117 [AStr key; ATypes types])
    else
      _ <~ (if decide (key = "keys") then
              vals <~ py_iter val ;;
              key_types <~ arg_types "key" ;;
              validate_key_list key_types vals
            else Ok tt) ;;
      if decide (key = "stale") then
        if negb (py_eq_str val "ok" || py_eq_str val "update_after")
        then Raise (CloudantArgumentError 135 [AVal val])
        else Ok tt
      else Ok tt.
Proof. intros Hd. unfold py_to_couch_validate. by rewrite Hd. Qed.

(** The checks that follow the class test never raise error 117. *)
Lemma further_checks_Raise (key : string) (val : pyval) (e : exn) :
  (_ <~ (if decide (key = "keys") then
           vals <~ py_iter val ;;
           key_types <~ arg_types "key" ;;
           validate_key_list key_types vals
         else Ok tt) ;;
   if decide (key = "stale") then
     if negb (py_eq_str val "ok" || py_eq_str val "update_after")
     then Raise (CloudantArgumentError 135 [AVal val])
     else Ok tt
   else Ok tt) = Raise e ->
  e = TypeError
  ∨ (key = "keys" ∧ InvalidKeyListItem e)
  ∨ (key = "stale" ∧ InvalidStaleValue e).
Proof.
  destruct (decide (key = "keys")) as [->|Hk].
  - destruct (py_iter val) as [vals|e'] eqn:Ev; cbn [bind].
    + change (arg_types "key")
        with (@Ok (list pytype) [Tint; Tint; Tstr; TSequence]).
      cbn [bind].
      destruct (validate_key_list _ vals) as [[]|e'] eqn:El; cbn [bind].
      * by rewrite decide_False.
      * intros [= <-]. right; left. split; [done |].
        rewrite (validate_key_list_Raise _ _ _ El). by eexists.
    + intros [= <-]. left. destruct val; cbn in Ev; congruence.
  - cbn [bind]. destruct (decide (key = "stale")) as [->|]; [|done].
    destruct (negb _); [|done]. intros [= <-]. right; right.
    split; [done | by eexists].
Qed.

Lemma validate_InvalidType (key : string) (types : list pytype) (val : pyval) :
  dict_get key RESULT_ARG_TYPES = Some types ->
  (∃ e, py_to_couch_validate key val = Raise e ∧ InvalidType e)
  <-> (isinstance val types = false ∨ (is_bool val = true ∧ Tint ∈ types)).
Proof.
  intros Hd. rewrite (validate_declared _ _ _ Hd).
  destruct (negb (isinstance val types)
            || is_bool val && bool_decide (Tint ∈ types)) eqn:E.
  - split; [|intros _; by eexists _; split; [|eexists]].
    intros _. apply orb_true_iff in E as [E|E].
    + left. by apply negb_true_iff.
    + right. apply andb_true_iff in E as [? E].
      by apply bool_decide_eq_true_1 in E.
  - split.
    + intros (e & He & args & ->).
      apply further_checks_Raise in He
        as [?|[(_ & ? & ?)|(_ & ? & ?)]]; done.
    + apply orb_false_iff in E as [Ei Eb]. apply negb_false_iff in Ei.
      intros [?|[Hb Hint]]; [congruence |].
      rewrite Hb, bool_decide_eq_true_2 in Eb; done.
Qed.

(** C3: a key outside the table is error 116; under a key of the table,
    error 117 is raised exactly when the value is no instance of the declared
    classes or is a boolean where [int] is declared; every declared class has
    a value the key accepts; and, the two keys with a further check apart,
    every other value is accepted. [skip=True] is rejected, [skip=5] is not. *)
Theorem validate_declared_types :
  (∀ key val, dict_get key RESULT_ARG_TYPES = None ->
     ∃ e, py_to_couch_validate key val = Raise e ∧ UnknownOption e)
  ∧ (∀ key types val, dict_get key RESULT_ARG_TYPES = Some types ->
       ((∃ e, py_to_couch_validate key val = Raise e ∧ InvalidType e)
        <-> (isinstance val types = false
             ∨ (is_bool val = true ∧ Tint ∈ types))))
  ∧ (∀ key types ty, dict_get key RESULT_ARG_TYPES = Some types ->
       ty ∈ types ->
       isinstance (sample ty) [ty] = true
       ∧ py_to_couch_validate key (sample ty) = Ok tt)
  ∧ (∀ key types val, dict_get key RESULT_ARG_TYPES = Some types ->
       key ≠ "keys" -> key ≠ "stale" ->
       isinstance val types = true ->
       (is_bool val = true -> Tint ∉ types) ->
       py_to_couch_validate key val = Ok tt)
  ∧ (∃ e, py_to_couch_validate "skip" (PBool true) = Raise e ∧ InvalidType e)
  ∧ py_to_couch_validate "skip" (PInt 5) = Ok tt.
Proof.
  split; [|split; [|split; [|split; [|split]]]].
  - intros key val Hd. unfold py_to_couch_validate. rewrite Hd.
    argument_error.
  - apply validate_InvalidType.
  - intros key types ty Hd Hty. apply RESULT_ARG_TYPES_declared in Hd.
    vm_compute in Hd.
    repeat (apply elem_of_cons in Hd as [[= -> ->]|Hd]);
      try (by apply elem_of_nil in Hd);
      repeat (apply elem_of_cons in Hty as [->|Hty]);
      try (by apply elem_of_nil in Hty);
      by vm_compute.
  - intros key types val Hd Hkeys Hstale Hi Hb.
    rewrite (validate_declared _ _ _ Hd), Hi. cbn [negb orb].
    destruct (is_bool val) eqn:Eb; cbn [andb].
    + rewrite bool_decide_eq_false_2 by auto.
      by rewrite !decide_False.
    + by rewrite !decide_False.
  - by eexists _; split; [vm_compute|eexists].
  - by vm_compute.
Qed.

Lemma validate_declared_types_witness :
  (∃ e, py_to_couch_validate "bogus_key" (PInt 1) = Raise e ∧ UnknownOption e)
  ∧ py_to_couch_validate "key" (PTuple [PInt 1]) = Ok tt.
Proof.
  split.
  - by apply (proj1 validate_declared_types "bogus_key" (PInt 1)).
  - apply (proj1 (proj2 (proj2 (proj2 validate_declared_types)))
             "key" [Tint; Tint; Tstr; TSequence] (PTuple [PInt 1]));
      try done.
Defined.

Lemma key_item_ok_iff (x : pyval) :
  key_item_ok x
  <-> isinstance x [Tint; Tint; Tstr; TSequence] = true ∧ is_bool x = false.
Proof.
  unfold key_item_ok.
  rewrite (validate_declared "key" [Tint; Tint; Tstr; TSequence]) by done.
  rewrite (bool_decide_eq_true_2 (Tint ∈ _)) by apply list_elem_of_here.
  destruct (isinstance x _), (is_bool x); cbn; intuition congruence.
Qed.

Lemma validate_keys_PList (xs : list pyval) :
  py_to_couch_validate "keys" (PList xs)
  = validate_key_list [Tint; Tint; Tstr; TSequence] xs.
Proof.
  rewrite (validate_declared "keys" [Tlist]) by done.
  change (isinstance (PList xs) [Tlist]) with true.
  change (is_bool (PList xs)) with false. cbn [negb orb andb].
  rewrite decide_True by done. cbn [py_iter bind].
  change (arg_types "key")
    with (@Ok (list pytype) [Tint; Tint; Tstr; TSequence]).
  cbn [bind].
  destruct (validate_key_list _ xs) as [[]|]; cbn [bind]; [|done].
  by rewrite decide_False.
Qed.

Lemma validate_keys_not_list (val : pyval) :
  type_of val ≠ Tlist ->
  py_to_couch_validate "keys" val
  = Raise (CloudantArgumentError 117 [AStr "keys"; ATypes [Tlist]]).
Proof.
  intros Hty. rewrite (validate_declared "keys" [Tlist]) by done.
  by destruct val.
Qed.

(** C7, as the code has it: [validate("keys", value)] succeeds exactly when
    [value] is a [list] whose items all satisfy the constraint of the [key]
    option and are no booleans; a list with an item that does not is error
    134; a value that is no [list] (a tuple, a string) is error 117. *)
Theorem validate_keys_list :
  (∀ val, py_to_couch_validate "keys" val = Ok tt
          <-> ∃ xs, val = PList xs ∧ Forall key_item_ok xs)
  ∧ (∀ xs, ¬ Forall key_item_ok xs ->
       ∃ e, py_to_couch_validate "keys" (PList xs) = Raise e
            ∧ InvalidKeyListItem e)
  ∧ (∀ val, type_of val ≠ Tlist ->
       ∃ e, py_to_couch_validate "keys" val = Raise e ∧ InvalidType e).
Proof.
  assert (Hok : ∀ xs, validate_key_list [Tint; Tint; Tstr; TSequence] xs = Ok tt
                      <-> Forall key_item_ok xs).
  { intros xs. rewrite validate_key_list_Ok.
    apply Forall_proper; [|done]. intros x. by rewrite key_item_ok_iff. }
  split; [|split].
  - intros val. split.
    + intros Hv. destruct (decide (type_of val = Tlist)) as [Hty|Hty].
      * destruct val; try done. eexists; split; [done |].
        apply Hok. by rewrite <- validate_keys_PList.
      * by rewrite validate_keys_not_list in Hv.
    + intros (xs & -> & Hxs). rewrite validate_keys_PList. by apply Hok.
  - intros xs Hxs. rewrite validate_keys_PList.
    destruct (validate_key_list_total [Tint; Tint; Tstr; TSequence] xs)
      as [Hv|Hv]; [by apply Hok in Hv |].
    rewrite Hv. argument_error.
  - intros val Hty. rewrite validate_keys_not_list by done.
    argument_error.
Qed.

Lemma validate_keys_list_witness :
  py_to_couch_validate "keys" (PList [PInt 1; PStr "a"; PTuple []]) = Ok tt
  ∧ (∃ e, py_to_couch_validate "keys" (PTuple [PInt 1; PInt 2]) = Raise e
          ∧ InvalidType e).
Proof.
  split.
  - apply (proj1 validate_keys_list). eexists; split; [done |].
    repeat constructor.
  - by apply (proj2 (proj2 validate_keys_list)).
Defined.

(** C7 as the spec states it fails on a tuple: an ordered sequence, every
    item of which the [key] option accepts and is no boolean, yet
    [validate("keys", ...)] raises error 117. *)
Lemma validate_keys_rejects_tuple :
  isinstance (PTuple [PInt 1; PInt 2]) [TSequence] = true
  ∧ Forall key_item_ok [PInt 1; PInt 2]
  ∧ py_to_couch_validate "keys" (PTuple [PInt 1; PInt 2])
    = Raise (CloudantArgumentError 117 [AStr "keys"; ATypes [Tlist]]).
Proof. split; [done | split; [repeat constructor | done]]. Qed.

(** ** [python_to_couch] *)

Lemma translate_Ok_singleton (key : string) (val : pyval)
  (d : odict string pyval) :
  _py_to_couch_translate key val = Ok d -> ∃ v, d = [(key, v)].
Proof.
  unfold _py_to_couch_translate. case_bool_decide.
  - intros [= <-]. by eexists.
  - destruct val; try (intros [= <-]; by eexists);
      cbn [bind]; destruct (call_converter _); try done;
      intros [= <-]; by eexists.
Qed.

(** The keys of a dictionary after the keys [l] were set in it, one after
    the other. *)
Lemma keys_foldl_dict_set (l : list string) :
  ∀ ks : list string,
    NoDup (ks ++ l) ->
    foldl (fun acc k => if bool_decide (k ∈ acc) then acc else (acc ++ [k])%list)
      ks l
    = (ks ++ l)%list.
Proof.
  induction l as [|k l IH]; intros ks Hnd; cbn [foldl].
  - by rewrite app_nil_r.
  - assert (Hk : k ∉ ks).
    { apply NoDup_app in Hnd as (_ & Hdisj & _).
      intros Hin. apply (Hdisj k Hin). apply list_elem_of_here. }
    rewrite bool_decide_eq_false_2 by done.
    rewrite IH; rewrite <- app_assoc; done.
Qed.

Lemma elem_of_foldl_dict_set (l : list string) :
  ∀ (ks : list string) (x : string),
    x ∈ foldl (fun acc k => if bool_decide (k ∈ acc) then acc
                            else (acc ++ [k])%list) ks l
    <-> x ∈ ks ∨ x ∈ l.
Proof.
  induction l as [|k l IH]; intros ks x; cbn [foldl].
  - rewrite elem_of_nil. tauto.
  - rewrite IH, elem_of_cons. case_bool_decide as Hk.
    + split; [tauto |]. intros [?|[->|?]]; tauto.
    + rewrite elem_of_app, list_elem_of_singleton. tauto.
Qed.

Lemma translate_items_keys (translation : loc) (items : list (string * pyval)) :
  ∀ (h : heap) (acc : odict string pyval),
    h !! translation = Some acc ->
    Forall entry_ok items ->
    ∃ (h' : heap) (out : odict string pyval),
      translate_items translation items h = (h', Ok tt)
      ∧ h' !! translation = Some out
      ∧ keys out
        = foldl (fun acc k => if bool_decide (k ∈ acc) then acc
                              else (acc ++ [k])%list) (keys acc) (keys items)
      ∧ ∀ l, l ≠ translation -> h' !! l = h !! l.
Proof.
  induction items as [|[key val] items IH]; intros h acc Hacc Hok.
  - by exists h, acc.
  - apply Forall_cons in Hok as [[Hv [d Hd]] Hok]. cbn in Hv, Hd.
    cbn [translate_items]. rewrite Hv, Hd.
    destruct (translate_Ok_singleton _ _ _ Hd) as [v ->].
    destruct (IH (heap_update translation [(key, v)] h) (dict_set key v acc))
      as (h' & out & Hrun & Hout & Hkeys & Hother).
    + unfold heap_update. rewrite lookup_alter_eq, Hacc. done.
    + done.
    + exists h', out. split; [done |]. split; [done |]. split.
      * rewrite Hkeys, keys_dict_set. reflexivity.
      * intros l Hl. rewrite Hother by done.
        unfold heap_update. by rewrite lookup_alter_ne.
Qed.

(** C10: when every entry of the options passes validation and conversion,
    [python_to_couch] returns a new dictionary whose keys are exactly the
    keys of the options, in their order; the options are left as they were,
    and so is every other object; empty options give an empty translation. *)
Theorem python_to_couch_keeps_keys (h : heap) (options : loc)
  (opts : odict string pyval) :
  h !! options = Some opts ->
  Forall entry_ok opts ->
  ∃ (h' : heap) (translation : loc) (out : odict string pyval),
    python_to_couch options h = (h', Ok translation)
    ∧ h' !! translation = Some out
    ∧ (∀ k, k ∈ keys out <-> k ∈ keys opts)
    ∧ (NoDup (keys opts) -> keys out = keys opts)
    ∧ (opts = [] -> out = [])
    ∧ h !! translation = None
    ∧ h' !! options = Some opts
    ∧ ∀ l, l ≠ translation -> h' !! l = h !! l.
Proof.
  intros Hopts Hok.
  pose (translation := fresh (dom h)).
  assert (Hnew : h !! translation = None).
  { apply not_elem_of_dom. apply is_fresh. }
  assert (Hne : translation ≠ options) by (intros Heq; congruence).
  destruct (translate_items_keys translation opts (<[translation:=[]]> h) [])
    as (h' & out & Hrun & Hout & Hkeys & Hother).
  - by rewrite lookup_insert_eq.
  - done.
  - exists h', translation, out. split.
    { unfold python_to_couch. cbv zeta. fold translation.
      rewrite lookup_insert_ne, Hopts by done. by rewrite Hrun. }
    split; [done |]. split; [|split; [|split; [|split; [|split]]]].
    + intros k. rewrite Hkeys, elem_of_foldl_dict_set.
      unfold keys at 1. cbn. rewrite elem_of_nil. tauto.
    + intros Hnd. rewrite Hkeys. by apply keys_foldl_dict_set.
    + intros ->. by destruct out.
    + done.
    + rewrite Hother, lookup_insert_ne by done. done.
    + intros l Hl. rewrite Hother, lookup_insert_ne by done. done.
Qed.

Lemma python_to_couch_keeps_keys_witness :
  ∃ (h' : heap) (translation : loc) (out : odict string pyval),
    python_to_couch 1%positive
      {[ 1%positive := [("limit", PInt 5); ("key", PStr "foo")] ]}
    = (h', Ok translation)
    ∧ h' !! translation = Some out
    ∧ keys out = ["limit"; "key"].
Proof.
  destruct (python_to_couch_keeps_keys
              {[ 1%positive := [("limit", PInt 5); ("key", PStr "foo")] ]}
              1%positive [("limit", PInt 5); ("key", PStr "foo")])
    as (h' & translation & out & Hrun & Hout & _ & Hkeys & _).
  - done.
  - repeat constructor; by eexists.
  - exists h', translation, out. split; [done |]. split; [done |].
    apply Hkeys. decided.
Defined.

(** ** Sessions *)

Lemma ClientSession_request_Ok (t : pyval) (from : site) (m u : string)
  (kw : odict string pyval) (w w1 : world) (resp : response) :
  ClientSession.request t from m u kw w = (w1, Ok resp) ->
  log w1 = (log w ++ [EvSend from (Request m u t kw)])%list
  ∧ exchanges w1 = S (exchanges w)
  ∧ net w1 = net w
  ∧ net w (exchanges w) (Request m u t kw) = Reply resp.
Proof.
  unfold ClientSession.request, Session_request, lift.
  destruct (dict_get "timeout" kw); [done |].
  destruct (net w _ _) as [r|] eqn:E; [|done].
  by intros [= <- <-].
Qed.

Lemma ClientSession_request_log (t : pyval) (from : site) (m u : string)
  (kw : odict string pyval) (w w1 : world) (out : result response) :
  dict_get "timeout" kw = None ->
  ClientSession.request t from m u kw w = (w1, out) ->
  log w1 = (log w ++ [EvSend from (Request m u t kw)])%list.
Proof.
  unfold ClientSession.request, Session_request. intros ->.
  destruct (net w _ _); by intros [= <- <-].
Qed.

Lemma CookieSession_login_log (self : CookieSession.t) (w w1 : world)
  (out : result unit) :
  CookieSession.login self w = (w1, out) ->
  log w1 = (log w ++ [EvLogin; EvSend InLogin (login_request self)])%list.
Proof.
  unfold CookieSession.login, bindM, emit, lift.
  destruct (ClientSession.request _ _ _ _ _ _) as [w' [resp|e]] eqn:E;
    intros [= <- <-];
    apply ClientSession_request_log in E; try done;
    rewrite E; cbn [log]; by rewrite <- app_assoc.
Qed.

Lemma is_expired_true (resp : response) :
  credentials_expired resp -> CookieSession.is_expired resp = Ok true.
Proof.
  unfold CookieSession.is_expired.
  intros [H401|(H403 & kvs & Hbody & Herr)].
  - rewrite H401. done.
  - rewrite H403. unfold response_json. rewrite Hbody. cbn. by rewrite Herr.
Qed.

Lemma issues_app (l1 l2 : list event) :
  issues (l1 ++ l2) = (issues l1 + issues l2)%nat.
Proof.
  induction l1 as [|[| |[] req] l1 IH]; cbn [app issues]; by rewrite ?IH.
Qed.

Lemma logins_app (l1 l2 : list event) :
  logins (l1 ++ l2) = (logins l1 + logins l2)%nat.
Proof.
  induction l1 as [|[| |from req] l1 IH]; cbn [app logins]; by rewrite ?IH.
Qed.

Lemma internal_counts (l : list event) :
  Forall internal l -> issues l = 0%nat ∧ logins l = 0%nat.
Proof.
  induction 1 as [|[| |[] req] l Hev _ IH]; try done.
Qed.

(** One call of [ClientSession.request] sends one request or, when the
    keywords are refused, none. *)
Lemma ClientSession_request_new (t : pyval) (from : site) (m u : string)
  (kw : odict string pyval) (w w1 : world) (out : result response) :
  ClientSession.request t from m u kw w = (w1, out) ->
  ∃ new, log w1 = (log w ++ new)%list
         ∧ (new = [] ∨ new = [EvSend from (Request m u t kw)]).
Proof.
  unfold ClientSession.request, Session_request, lift.
  destruct (dict_get "timeout" kw).
  - intros [= <- <-]. exists []. rewrite app_nil_r. auto.
  - destruct (net w _ _); intros [= <- <-]; eexists; eauto.
Qed.

(** Whatever the network does, [CookieSession.request] sends the request
    at most twice and calls [login()] at most once. *)
Lemma CookieSession_request_bounded (self : CookieSession.t) (m u : string)
  (kw : odict string pyval) (w : world) :
  ∃ new, log (CookieSession.request self m u kw w).1 = (log w ++ new)%list
         ∧ (issues new <= 2)%nat ∧ (logins new <= 1)%nat.
Proof.
  unfold CookieSession.request, bindM, lift, ret.
  destruct (ClientSession.request _ _ _ _ _ w) as [w1 [resp|e]] eqn:E1;
    destruct (ClientSession_request_new _ _ _ _ _ _ _ _ E1)
      as (n1 & Hn1 & Hs1); cbn [fst].
  2:{ exists n1. split; [done |]. destruct Hs1 as [->| ->]; cbn; lia. }
  destruct (negb _).
  { exists n1. split; [done |]. destruct Hs1 as [->| ->]; cbn; lia. }
  destruct (CookieSession.is_expired resp) as [[]|e].
  - destruct (CookieSession.login self w1) as [w2 [[]|e]] eqn:E2;
      pose proof (CookieSession_login_log _ _ _ _ E2) as Hn2.
    + destruct (ClientSession.request _ _ _ _ _ w2) as [w3 out] eqn:E3.
      destruct (ClientSession_request_new _ _ _ _ _ _ _ _ E3)
        as (n3 & Hn3 & Hs3). cbn [fst].
      rewrite Hn3, Hn2, Hn1, <- !app_assoc. eexists. split; [done |].
      rewrite !issues_app, !logins_app.
      destruct Hs1 as [->| ->], Hs3 as [->| ->]; cbn; lia.
    + cbn [fst]. rewrite Hn2, Hn1, <- !app_assoc. eexists. split; [done |].
      rewrite !issues_app, !logins_app.
      destruct Hs1 as [->| ->]; cbn; lia.
  - exists n1. split; [done |]. destruct Hs1 as [->| ->]; cbn; lia.
  - exists n1. split; [done |]. destruct Hs1 as [->| ->]; cbn; lia.
Qed.

(** The cases of [CookieSession.request] after a first response. *)
Lemma CookieSession_request_cases (self : CookieSession.t)
  (m u : string) (kw : odict string pyval) (w w1 : world) (resp : response) :
  ClientSession.request (CookieSession._timeout self) InRequest m u kw w
  = (w1, Ok resp) ->
  (CookieSession._auto_renew self = false ->
     CookieSession.request self m u kw w = (w1, Ok resp)
     ∧ log w1
       = (log w
          ++ [EvSend InRequest (Request m u (CookieSession._timeout self) kw)])%list)
  ∧ (CookieSession._auto_renew self = true ->
     credentials_expired resp ->
     ∀ w2,
       (∀ e, CookieSession.login self w1 = (w2, Raise e) ->
          CookieSession.request self m u kw w = (w2, Raise e)
          ∧ log w2
            = (log w
               ++ [EvSend InRequest (Request m u (CookieSession._timeout self) kw);
                   EvLogin;
                   EvSend InLogin (login_request self)])%list)
       ∧ (CookieSession.login self w1 = (w2, Ok tt) ->
          ∀ w3 out,
            ClientSession.request (CookieSession._timeout self) InRequest
              m u kw w2 = (w3, out) ->
            CookieSession.request self m u kw w = (w3, out)
            ∧ log w3
              = (log w
                 ++ [EvSend InRequest (Request m u (CookieSession._timeout self) kw);
                     EvLogin;
                     EvSend InLogin (login_request self);
                     EvSend InRequest (Request m u (CookieSession._timeout self) kw)])%list)).
Proof.
  intros Hfirst.
  destruct (ClientSession_request_Ok _ _ _ _ _ _ _ _ Hfirst) as (Hlog1 & _).
  assert (Hkw : dict_get "timeout" kw = None).
  { revert Hfirst. unfold ClientSession.request, lift.
    by destruct (dict_get "timeout" kw). }
  split.
  - intros Hauto. split; [|done].
    unfold CookieSession.request, bindM. by rewrite Hfirst, Hauto.
  - intros Hauto Hexp w2. split.
    + intros e Hlogin. split.
      * unfold CookieSession.request, bindM, lift.
        rewrite Hfirst, Hauto, (is_expired_true _ Hexp). cbn [negb].
        by rewrite Hlogin.
      * rewrite (CookieSession_login_log _ _ _ _ Hlogin), Hlog1.
        by rewrite <- app_assoc.
    + intros Hlogin w3 out Hsecond. split.
      * unfold CookieSession.request, bindM, lift.
        rewrite Hfirst, Hauto, (is_expired_true _ Hexp). cbn [negb].
        by rewrite Hlogin.
      * rewrite (ClientSession_request_log _ _ _ _ _ _ _ _ Hkw Hsecond).
        rewrite (CookieSession_login_log _ _ _ _ Hlogin), Hlog1.
        by rewrite <- !app_assoc.
Qed.

(** C1, as the code has it. Whatever the network does, the request is sent
    at most twice and [login()] is called at most once. When the first
    attempt returned [resp]: without [auto_renew] that response is the
    result and nothing else is sent; with [auto_renew] and an expired
    response, [login()] is called once; when it raises, its exception is the
    result and the request is not sent again; when it returns, the request
    is sent once more and whatever that second attempt gives, a response of
    any status or an exception, is the result. *)
Theorem CookieSession_request_renews_once (self : CookieSession.t)
  (m u : string) (kw : odict string pyval) (w : world) :
  (∃ new, log (CookieSession.request self m u kw w).1 = (log w ++ new)%list
          ∧ (issues new <= 2)%nat ∧ (logins new <= 1)%nat)
  ∧ ∀ w1 resp,
      ClientSession.request (CookieSession._timeout self) InRequest m u kw w
      = (w1, Ok resp) ->
      (CookieSession._auto_renew self = false ->
         CookieSession.request self m u kw w = (w1, Ok resp)
         ∧ log w1
           = (log w
              ++ [EvSend InRequest
                    (Request m u (CookieSession._timeout self) kw)])%list)
      ∧ (CookieSession._auto_renew self = true ->
         credentials_expired resp ->
         ∀ w2,
           (∀ e, CookieSession.login self w1 = (w2, Raise e) ->
              CookieSession.request self m u kw w = (w2, Raise e)
              ∧ log w2
                = (log w
                   ++ [EvSend InRequest
                         (Request m u (CookieSession._timeout self) kw);
                       EvLogin;
                       EvSend InLogin (login_request self)])%list)
           ∧ (CookieSession.login self w1 = (w2, Ok tt) ->
              ∀ w3 out,
                ClientSession.request (CookieSession._timeout self) InRequest
                  m u kw w2 = (w3, out) ->
                CookieSession.request self m u kw w = (w3, out)
                ∧ log w3
                  = (log w
                     ++ [EvSend InRequest
                           (Request m u (CookieSession._timeout self) kw);
                         EvLogin;
                         EvSend InLogin (login_request self);
                         EvSend InRequest
                           (Request m u (CookieSession._timeout self) kw)])%list)).
Proof.
  split.
  - apply CookieSession_request_bounded.
  - intros w1 resp. apply CookieSession_request_cases.
Qed.

Lemma CookieSession_request_renews_once_witness :
  (CookieSession.request alice "GET" docs_url [] (world_of expired_once [])).2
  = Ok {| status_code := 200;
          json_body := Some (PDict [(PStr "ok", PBool true)]);
          set_cookies := [] |}
  ∧ log (CookieSession.request alice "GET" docs_url []
           (world_of expired_once [])).1
    = [EvSend InRequest (Request "GET" docs_url PNone []);
       EvLogin;
       EvSend InLogin (login_request alice);
       EvSend InRequest (Request "GET" docs_url PNone [])].
Proof.
  pose (w0 := world_of expired_once []).
  pose (w1 := (ClientSession.request PNone InRequest "GET" docs_url [] w0).1).
  pose (w2 := (CookieSession.login alice w1).1).
  pose (w3 := (ClientSession.request PNone InRequest "GET" docs_url [] w2).1).
  destruct (proj2 (CookieSession_request_renews_once alice "GET" docs_url []
                     w0) w1
              {| status_code := 401; json_body := None; set_cookies := [] |}
              eq_refl) as [_ Hrenew].
  destruct (Hrenew eq_refl (or_introl eq_refl) w2) as [_ Hok].
  destruct (Hok eq_refl w3
              (Ok {| status_code := 200;
                     json_body := Some (PDict [(PStr "ok", PBool true)]);
                     set_cookies := [] |}) eq_refl) as [Hres Hlog].
  fold w0. rewrite Hres. split; [reflexivity | exact Hlog].
Defined.

(** C1 as the spec states it fails when [login()] itself is refused: the
    first response is 401 and [auto_renew] is on, yet the request is sent
    once only, and the caller gets the exception of [login()], not a second
    response. *)
Lemma CookieSession_login_refused_no_reissue :
  CookieSession._auto_renew alice = true
  ∧ (ClientSession.request PNone InRequest "GET" docs_url []
       (world_of always_401 [])).2
    = Ok {| status_code := 401; json_body := None; set_cookies := [] |}
  ∧ (CookieSession.request alice "GET" docs_url [] (world_of always_401 [])).2
    = Raise (HTTPError 401)
  ∧ log (CookieSession.request alice "GET" docs_url []
           (world_of always_401 [])).1
    = [EvSend InRequest (Request "GET" docs_url PNone []);
       EvLogin;
       EvSend InLogin (login_request alice)].
Proof. repeat split. Qed.

(** ** IAMSession *)

Lemma ClientSession_request_extends (t : pyval) (from : site) (m u : string)
  (kw : odict string pyval) (w w1 : world) (out : result response) :
  ClientSession.request t from m u kw w = (w1, out) ->
  ∃ tail, log w1 = (log w ++ tail)%list.
Proof.
  unfold ClientSession.request, Session_request, lift.
  destruct (dict_get "timeout" kw).
  - intros [= <- <-]. exists []. by rewrite app_nil_r.
  - destruct (net w _ _); intros [= <- <-]; by eexists.
Qed.

Lemma get_access_token_log (self : IAMSession.t) (w w1 : world)
  (out : result pyval) :
  IAMSession._get_access_token self w = (w1, out) ->
  log w1 = (log w ++ [EvSend InGetAccessToken (token_request self)])%list.
Proof.
  unfold IAMSession._get_access_token.
  destruct (ClientSession.request _ _ _ _ _ _) as [w' [resp|e]] eqn:E.
  - apply ClientSession_request_log in E; [|done].
    repeat case_match; by intros [= <- <-].
  - apply ClientSession_request_log in E; [|done]. by intros [= <- <-].
Qed.

Lemma IAMSession_login_log (self : IAMSession.t) (w w1 : world)
  (out : result unit) :
  IAMSession.login self w = (w1, out) ->
  ∃ tail, log w1 = (log w ++ EvLogin :: tail)%list ∧ Forall internal tail.
Proof.
  unfold IAMSession.login, bindM, try_except, emit, lift.
  destruct (IAMSession._get_access_token _ _) as [w' [tok|e]] eqn:Etok;
    apply get_access_token_log in Etok; cbn [log] in Etok.
  - destruct (dumps _) as [data|e].
    + destruct (ClientSession.request _ _ _ _ _ _) as [w'' [resp|e]] eqn:E;
        apply ClientSession_request_log in E; try done;
        [destruct (raise_for_status resp)|]; intros [= <- <-];
        rewrite E, Etok, <- !app_assoc; eexists; split; try done;
        repeat constructor.
    + intros [= <- <-]. rewrite Etok, <- app_assoc.
      eexists; split; [done | repeat constructor].
  - intros [= <- <-]. rewrite Etok, <- app_assoc.
    eexists; split; [done | repeat constructor].
Qed.

Lemma cleared_log (w : world) :
  log (cleared w) = (log w ++ [EvClearExpired])%list.
Proof. reflexivity. Qed.

Lemma cleared_cookies_live (w : world) (name : string) (t : Z) :
  (name, Some t) ∈ cookies (cleared w) -> now w < t.
Proof.
  unfold cleared, clear_expired_cookies. cbn [fst cookies].
  rewrite list_elem_of_In, filter_In. intros [_ Hlive]. cbn in Hlive.
  apply negb_true_iff, Z.leb_gt in Hlive. done.
Qed.

(** [IAMSession.request] once the world of the first attempt is known. *)
Lemma IAMSession_request_from_first_attempt (self : IAMSession.t)
  (m u : string) (kw : odict string pyval) (w w1 : world) :
  first_attempt_world self w w1 ->
  IAMSession.request self m u kw w =
    match ClientSession.request (IAMSession._timeout self) InRequest m u kw w1
    with
    | (w2, Raise e) => (w2, Raise e)
    | (w2, Ok resp) =>
        if negb (IAMSession._auto_renew self) then (w2, Ok resp)
        else if status_code resp =? 401 then
          match IAMSession.login self w2 with
          | (w3, Raise e) => (w3, Raise e)
          | (w3, Ok _) =>
              ClientSession.request (IAMSession._timeout self) InRequest
                m u kw w3
          end
        else (w2, Ok resp)
    end.
Proof.
  unfold first_attempt_world, holds_session_cookie, cleared.
  unfold IAMSession.request, bindM at 1 2. cbn [clear_expired_cookies fst].
  destruct (IAMSession._auto_renew self) eqn:Ea; cbn [andb negb].
  - destruct (negb (bool_decide _)).
    + intros ->. unfold bindM, ret.
      destruct (ClientSession.request _ _ _ _ _ w1) as [w2 [resp|e]]; [|done].
      destruct (_ =? _); [|done].
      by destruct (IAMSession.login self w2) as [w3 [[]|e]].
    + intros ->. unfold bindM, ret.
      destruct (ClientSession.request _ _ _ _ _ _) as [w2 [resp|e]]; [|done].
      destruct (_ =? _); [|done].
      by destruct (IAMSession.login self w2) as [w3 [[]|e]].
  - intros ->. unfold bindM, ret.
    by destruct (ClientSession.request _ _ _ _ _ _) as [w2 [resp|e]].
Qed.

Lemma IAMSession_request_login_refused (self : IAMSession.t) (m u : string)
  (kw : odict string pyval) (w w1 : world) (e : exn) :
  IAMSession._auto_renew self = true ->
  ¬ holds_session_cookie (cleared w) ->
  IAMSession.login self (cleared w) = (w1, Raise e) ->
  IAMSession.request self m u kw w = (w1, Raise e).
Proof.
  unfold holds_session_cookie, cleared. intros Ha Hc Hl.
  unfold IAMSession.request, bindM at 1 2. cbn [clear_expired_cookies fst].
  cbn [clear_expired_cookies fst] in Hc, Hl.
  rewrite Ha, bool_decide_eq_false_2 by done. cbn [andb negb].
  by rewrite Hl.
Qed.

Lemma IAMSession_request_extends (self : IAMSession.t) (m u : string)
  (kw : odict string pyval) (w w1 : world) :
  first_attempt_world self w w1 ->
  ∃ tail, log (IAMSession.request self m u kw w).1 = (log w1 ++ tail)%list.
Proof.
  intros Hw1. rewrite (IAMSession_request_from_first_attempt _ _ _ _ _ _ Hw1).
  destruct (ClientSession.request _ _ _ _ _ w1) as [w2 [resp|e]] eqn:E1;
    destruct (ClientSession_request_extends _ _ _ _ _ _ _ _ E1) as [t1 Ht1];
    [|by exists t1].
  destruct (negb _); [by exists t1 |].
  destruct (_ =? _); [|by exists t1].
  destruct (IAMSession.login self w2) as [w3 [[]|e]] eqn:E2;
    destruct (IAMSession_login_log _ _ _ _ E2) as (t2 & Ht2 & _).
  - destruct (ClientSession.request _ _ _ _ _ w3) as [w4 out] eqn:E3.
    destruct (ClientSession_request_extends _ _ _ _ _ _ _ _ E3) as [t3 Ht3].
    cbn [fst]. rewrite Ht3, Ht2, Ht1, <- !app_assoc. by eexists.
  - cbn [fst]. rewrite Ht2, Ht1, <- !app_assoc. by eexists.
Qed.

(** Whatever the network does, [IAMSession.request] sends the request at
    most twice and calls [login()] at most twice: once before the first
    attempt and once after it. *)
Lemma IAMSession_request_bounded (self : IAMSession.t) (m u : string)
  (kw : odict string pyval) (w : world) :
  ∃ new, log (IAMSession.request self m u kw w).1 = (log w ++ new)%list
         ∧ (issues new <= 2)%nat ∧ (logins new <= 2)%nat.
Proof.
  assert (Hrest : ∀ w1 pre,
    first_attempt_world self w w1 ->
    log w1 = (log w ++ pre)%list ->
    issues pre = 0%nat -> (logins pre <= 1)%nat ->
    ∃ new, log (IAMSession.request self m u kw w).1 = (log w ++ new)%list
           ∧ (issues new <= 2)%nat ∧ (logins new <= 2)%nat).
  { intros w1 pre Hw1 Hpre Hi Hl.
    rewrite (IAMSession_request_from_first_attempt _ _ _ _ _ _ Hw1).
    destruct (ClientSession.request _ _ _ _ _ w1) as [w2 [resp|e]] eqn:E1;
      destruct (ClientSession_request_new _ _ _ _ _ _ _ _ E1)
        as (n1 & Hn1 & Hs1).
    2:{ cbn [fst]. rewrite Hn1, Hpre, <- !app_assoc. eexists. split; [done |].
        rewrite !issues_app, !logins_app.
        destruct Hs1 as [->| ->]; cbn; lia. }
    assert (Hstop : ∃ new, log w2 = (log w ++ new)%list
                           ∧ (issues new <= 2)%nat ∧ (logins new <= 2)%nat).
    { rewrite Hn1, Hpre, <- !app_assoc. eexists. split; [done |].
      rewrite !issues_app, !logins_app.
      destruct Hs1 as [->| ->]; cbn; lia. }
    destruct (negb _); [done |]. destruct (_ =? _); [|done].
    destruct (IAMSession.login self w2) as [w3 [[]|e]] eqn:E2;
      destruct (IAMSession_login_log _ _ _ _ E2) as (t2 & Ht2 & Hint);
      destruct (internal_counts _ Hint) as [Hi2 Hl2].
    - destruct (ClientSession.request _ _ _ _ _ w3) as [w4 out] eqn:E3.
      destruct (ClientSession_request_new _ _ _ _ _ _ _ _ E3)
        as (n3 & Hn3 & Hs3). cbn [fst].
      rewrite Hn3, Ht2, Hn1, Hpre, <- !app_assoc. eexists. split; [done |].
      rewrite !issues_app, !logins_app. cbn [issues logins].
      rewrite Hi2, Hl2.
      destruct Hs1 as [->| ->], Hs3 as [->| ->]; cbn; lia.
    - cbn [fst]. rewrite Ht2, Hn1, Hpre, <- !app_assoc.
      eexists. split; [done |].
      rewrite !issues_app, !logins_app. cbn [issues logins].
      rewrite Hi2, Hl2.
      destruct Hs1 as [->| ->]; cbn; lia. }
  destruct (IAMSession._auto_renew self
            && negb (bool_decide (holds_session_cookie (cleared w)))) eqn:E.
  - destruct (IAMSession.login self (cleared w)) as [w1 [[]|e]] eqn:El;
      destruct (IAMSession_login_log _ _ _ _ El) as (t1 & Ht1 & Hint);
      destruct (internal_counts _ Hint) as [Hi1 Hl1].
    + apply (Hrest w1 (EvClearExpired :: EvLogin :: t1)).
      * unfold first_attempt_world. by rewrite E.
      * by rewrite Ht1, cleared_log, <- !app_assoc.
      * done.
      * cbn [logins]. lia.
    + apply andb_true_iff in E as [Ha Hc].
      apply negb_true_iff, bool_decide_eq_false_1 in Hc.
      rewrite (IAMSession_request_login_refused _ _ _ _ _ _ _ Ha Hc El).
      cbn [fst]. rewrite Ht1, cleared_log, <- !app_assoc.
      eexists. split; [done |]. cbn [app issues logins]. lia.
  - apply (Hrest (cleared w) [EvClearExpired]).
    + unfold first_attempt_world. by rewrite E.
    + apply cleared_log.
    + done.
    + cbn. lia.
Qed.

(** The course of [IAMSession.request], case by case. *)
Lemma IAMSession_request_cases (self : IAMSession.t) (m u : string)
  (kw : odict string pyval) (w : world) :
  (log (cleared w) = (log w ++ [EvClearExpired])%list
   ∧ (∀ name t, (name, Some t) ∈ cookies (cleared w) -> now w < t)
   ∧ ∃ tail, log (IAMSession.request self m u kw w).1
             = (log w ++ EvClearExpired :: tail)%list)
  ∧ (IAMSession._auto_renew self = true ->
     ¬ holds_session_cookie (cleared w) ->
     ∀ w1 r, IAMSession.login self (cleared w) = (w1, r) ->
       (∃ tail, log (IAMSession.request self m u kw w).1
                = (log w ++ EvClearExpired :: EvLogin :: tail)%list)
       ∧ (∀ e, r = Raise e ->
            IAMSession.request self m u kw w = (w1, Raise e)
            ∧ ∃ tail, log w1 = (log w ++ EvClearExpired :: EvLogin :: tail)%list
                      ∧ Forall internal tail))
  ∧ (∀ w1 w2 resp,
       first_attempt_world self w w1 ->
       ClientSession.request (IAMSession._timeout self) InRequest m u kw w1
       = (w2, Ok resp) ->
       (IAMSession._auto_renew self = false ∨ status_code resp ≠ 401 ->
          IAMSession.request self m u kw w = (w2, Ok resp))
       ∧ (IAMSession._auto_renew self = true -> status_code resp = 401 ->
          ∀ w3,
            (∀ e, IAMSession.login self w2 = (w3, Raise e) ->
               IAMSession.request self m u kw w = (w3, Raise e)
               ∧ ∃ tail,
                   log w3
                   = (log w1
                      ++ EvSend InRequest
                           (Request m u (IAMSession._timeout self) kw)
                         :: EvLogin :: tail)%list
                   ∧ Forall internal tail)
            ∧ (IAMSession.login self w2 = (w3, Ok tt) ->
               ∀ w4 out,
                 ClientSession.request (IAMSession._timeout self) InRequest
                   m u kw w3 = (w4, out) ->
                 IAMSession.request self m u kw w = (w4, out)
                 ∧ ∃ tail,
                     log w4
                     = (log w1
                        ++ EvSend InRequest
                             (Request m u (IAMSession._timeout self) kw)
                           :: EvLogin
                           :: tail
                           ++ [EvSend InRequest
                                 (Request m u (IAMSession._timeout self) kw)])%list
                     ∧ Forall internal tail))).
Proof.
  split; [|split].
  - split; [apply cleared_log |]. split; [apply cleared_cookies_live |].
    destruct (IAMSession._auto_renew self
              && negb (bool_decide (holds_session_cookie (cleared w)))) eqn:E.
    + destruct (IAMSession.login self (cleared w)) as [w1 [[]|e]] eqn:El;
        destruct (IAMSession_login_log _ _ _ _ El) as (t1 & Ht1 & _).
      * destruct (IAMSession_request_extends self m u kw w w1) as [t2 Ht2].
        { unfold first_attempt_world. by rewrite E. }
        rewrite Ht2, Ht1, cleared_log, <- !app_assoc. by eexists.
      * apply andb_true_iff in E as [Ha Hc].
        apply negb_true_iff, bool_decide_eq_false_1 in Hc.
        rewrite (IAMSession_request_login_refused _ _ _ _ _ _ _ Ha Hc El).
        cbn [fst]. rewrite Ht1, cleared_log, <- !app_assoc. by eexists.
    + destruct (IAMSession_request_extends self m u kw w (cleared w))
        as [t2 Ht2].
      { unfold first_attempt_world. by rewrite E. }
      rewrite Ht2, cleared_log, <- !app_assoc. by eexists.
  - intros Ha Hc w1 r El.
    destruct (IAMSession_login_log _ _ _ _ El) as (t1 & Ht1 & Hint).
    split.
    + destruct r as [[]|e].
      * destruct (IAMSession_request_extends self m u kw w w1) as [t2 Ht2].
        { unfold first_attempt_world.
          by rewrite Ha, bool_decide_eq_false_2. }
        rewrite Ht2, Ht1, cleared_log, <- !app_assoc. by eexists.
      * rewrite (IAMSession_request_login_refused _ _ _ _ _ _ _ Ha Hc El).
        cbn [fst]. rewrite Ht1, cleared_log, <- !app_assoc. by eexists.
    + intros e ->. split.
      * by apply IAMSession_request_login_refused.
      * exists t1. by rewrite Ht1, cleared_log, <- !app_assoc.
  - intros w1 w2 resp Hw1 Hfirst.
    rewrite (IAMSession_request_from_first_attempt _ _ _ _ _ _ Hw1), Hfirst.
    destruct (ClientSession_request_Ok _ _ _ _ _ _ _ _ Hfirst) as (Hlog1 & _).
    assert (Hkw : dict_get "timeout" kw = None).
    { revert Hfirst. unfold ClientSession.request, lift.
      by destruct (dict_get "timeout" kw). }
    split.
    + intros [->|Hs]; [done |].
      destruct (negb _); [done |].
      by rewrite (proj2 (Z.eqb_neq _ _) Hs).
    + intros -> -> w3. cbn [negb]. change (401 =? 401) with true. cbv iota.
      split.
      * intros e El. rewrite El. split; [done |].
        destruct (IAMSession_login_log _ _ _ _ El) as (t & Ht & Hint).
        exists t. by rewrite Ht, Hlog1, <- !app_assoc.
      * intros El w4 out Hsecond. rewrite El. split; [done |].
        destruct (IAMSession_login_log _ _ _ _ El) as (t & Ht & Hint).
        exists t. split; [|done].
        rewrite (ClientSession_request_log _ _ _ _ _ _ _ _ Hkw Hsecond).
        rewrite Ht, Hlog1, <- !app_assoc. done.
Qed.

(** C4, as the code has it. Whatever the network does, the request is sent
    at most twice and [login()] is called at most twice. The expired
    cookies are cleared before anything else. With [auto_renew] and no
    session cookie left, [login()] is the first thing done, and when it
    raises, the request is never sent. After a first response of status 401
    with [auto_renew], [login()] is called once; when it raises, its
    exception is the result and the request is not sent again; when it
    returns, the request is sent once more and what that attempt gives is
    the result. In every other case the first response is the result. *)
Theorem IAMSession_request_renewal (self : IAMSession.t) (m u : string)
  (kw : odict string pyval) (w : world) :
  (∃ new, log (IAMSession.request self m u kw w).1 = (log w ++ new)%list
          ∧ (issues new <= 2)%nat ∧ (logins new <= 2)%nat)
  ∧ (log (cleared w) = (log w ++ [EvClearExpired])%list
   ∧ (∀ name t, (name, Some t) ∈ cookies (cleared w) -> now w < t)
   ∧ ∃ tail, log (IAMSession.request self m u kw w).1
             = (log w ++ EvClearExpired :: tail)%list)
  ∧ (IAMSession._auto_renew self = true ->
     ¬ holds_session_cookie (cleared w) ->
     ∀ w1 r, IAMSession.login self (cleared w) = (w1, r) ->
       (∃ tail, log (IAMSession.request self m u kw w).1
                = (log w ++ EvClearExpired :: EvLogin :: tail)%list)
       ∧ (∀ e, r = Raise e ->
            IAMSession.request self m u kw w = (w1, Raise e)
            ∧ ∃ tail, log w1 = (log w ++ EvClearExpired :: EvLogin :: tail)%list
                      ∧ Forall internal tail))
  ∧ (∀ w1 w2 resp,
       first_attempt_world self w w1 ->
       ClientSession.request (IAMSession._timeout self) InRequest m u kw w1
       = (w2, Ok resp) ->
       (IAMSession._auto_renew self = false ∨ status_code resp ≠ 401 ->
          IAMSession.request self m u kw w = (w2, Ok resp))
       ∧ (IAMSession._auto_renew self = true -> status_code resp = 401 ->
          ∀ w3,
            (∀ e, IAMSession.login self w2 = (w3, Raise e) ->
               IAMSession.request self m u kw w = (w3, Raise e)
               ∧ ∃ tail,
                   log w3
                   = (log w1
                      ++ EvSend InRequest
                           (Request m u (IAMSession._timeout self) kw)
                         :: EvLogin :: tail)%list
                   ∧ Forall internal tail)
            ∧ (IAMSession.login self w2 = (w3, Ok tt) ->
               ∀ w4 out,
                 ClientSession.request (IAMSession._timeout self) InRequest
                   m u kw w3 = (w4, out) ->
                 IAMSession.request self m u kw w = (w4, out)
                 ∧ ∃ tail,
                     log w4
                     = (log w1
                        ++ EvSend InRequest
                             (Request m u (IAMSession._timeout self) kw)
                           :: EvLogin
                           :: tail
                           ++ [EvSend InRequest
                                 (Request m u (IAMSession._timeout self) kw)])%list
                     ∧ Forall internal tail))).
Proof.
  split.
  - apply IAMSession_request_bounded.
  - apply IAMSession_request_cases.
Qed.

Lemma IAMSession_request_renewal_witness :
  IAMSession.request svc "GET" docs_url [] (world_of iam_ok [])
  = ((ClientSession.request PNone InRequest "GET" docs_url []
        (IAMSession.login svc (cleared (world_of iam_ok []))).1).1,
     Ok {| status_code := 200; json_body := None; set_cookies := [] |}).
Proof.
  pose (w1 := (IAMSession.login svc (cleared (world_of iam_ok []))).1).
  pose (w2 := (ClientSession.request PNone InRequest "GET" docs_url [] w1).1).
  refine (proj1 (proj2 (proj2 (proj2 (IAMSession_request_renewal svc "GET"
                                        docs_url [] (world_of iam_ok []))))
                   w1 w2
                   {| status_code := 200; json_body := None; set_cookies := [] |}
                   _ _) _).
  - reflexivity.
  - reflexivity.
  - right. discriminate.
Defined.

(** C4 as the spec states it fails when [login()] raises. With the session
    cookie held, the first response is 401, the token service is down: the
    request is sent once only and the caller gets the exception of
    [login()]. With no cookie held, the same [login()] failure comes before
    the first attempt, and the request is never sent. *)
Lemma IAMSession_login_refused_no_reissue :
  IAMSession._auto_renew svc = true
  ∧ (IAMSession.request svc "GET" docs_url []
       (world_of token_service_down [("IAMSession", None)])).2
    = Raise (CloudantException IAMSession.contact_failed)
  ∧ log (IAMSession.request svc "GET" docs_url []
           (world_of token_service_down [("IAMSession", None)])).1
    = [EvClearExpired;
       EvSend InRequest (Request "GET" docs_url PNone []);
       EvLogin;
       EvSend InGetAccessToken (token_request svc)]
  ∧ (IAMSession.request svc "GET" docs_url []
       (world_of token_service_down [])).2
    = Raise (CloudantException IAMSession.contact_failed)
  ∧ log (IAMSession.request svc "GET" docs_url []
           (world_of token_service_down [])).1
    = [EvClearExpired; EvLogin; EvSend InGetAccessToken (token_request svc)].
Proof. repeat split. Qed.

(** *** Token acquisition *)

Lemma get_access_token_sends (self : IAMSession.t) :
  ClientSession.request (IAMSession._timeout self) InGetAccessToken
    "POST" (IAMSession._token_url self) (IAMSession.token_kwargs self)
  = Session_request InGetAccessToken (token_request self).
Proof. reflexivity. Qed.

Lemma get_access_token_unreachable (self : IAMSession.t) (w : world) :
  net w (exchanges w) (token_request self) = Unreachable ->
  (IAMSession._get_access_token self w).2
  = Raise (CloudantException IAMSession.contact_failed).
Proof.
  unfold IAMSession._get_access_token. rewrite get_access_token_sends.
  unfold Session_request.
  by intros ->.
Qed.

(** On a body that is a JSON object the errors are the two domain errors:
    an error status gives the message of the server or else the generic
    one, a missing [access_token] gives the invalid-response error. *)
Lemma get_access_token_object_body (self : IAMSession.t) (w : world)
  (resp : response) (kvs : list (pyval * pyval)) :
  net w (exchanges w) (token_request self) = Reply resp ->
  json_body resp = Some (PDict kvs) ->
  (IAMSession._get_access_token self w).2
  = if http_error (status_code resp) then
      Raise (CloudantException
               (from_option id IAMSession.contact_failed
                  (py_dict_lookup "errorMessage" kvs)))
    else match py_dict_lookup "access_token" kvs with
         | Some access_token => Ok access_token
         | None => Raise (CloudantException IAMSession.invalid_response)
         end.
Proof.
  unfold IAMSession._get_access_token. rewrite get_access_token_sends.
  unfold Session_request.
  intros -> Hbody. unfold response_json, raise_for_status, http_error.
  rewrite Hbody. cbn [bind py_get].
  destruct (_ && _); cbn [bind py_getitem]; [done |].
  by destruct (py_dict_lookup "access_token" kvs).
Qed.

Lemma token_handler_domain (err : pyval) (e : exn) :
  is_RequestException (IAMSession.token_handler err e) = false.
Proof. by destruct e. Qed.

(** No exception of the transport leaves [_get_access_token]. *)
Lemma get_access_token_no_transport_exception (self : IAMSession.t)
  (w : world) (e : exn) :
  (IAMSession._get_access_token self w).2 = Raise e ->
  is_RequestException e = false.
Proof.
  unfold IAMSession._get_access_token.
  destruct (ClientSession.request _ _ _ _ _ _) as [w' [resp|e']].
  - repeat case_match; cbn [snd]; intros [= <-]; apply token_handler_domain.
  - cbn [snd]. intros [= <-]. apply token_handler_domain.
Qed.

(** C5 fails on the code for a body that is no JSON object: the exception
    of reading the body leaves [_get_access_token] as it is, a [ValueError]
    for a body that is not JSON and an [AttributeError] for JSON that is no
    object, whatever the status. *)
Theorem get_access_token_unwrapped_body_errors (self : IAMSession.t)
  (w : world) (resp : response) :
  net w (exchanges w) (token_request self) = Reply resp ->
  (json_body resp = None ->
     (IAMSession._get_access_token self w).2 = Raise ValueError)
  ∧ (∀ v, json_body resp = Some v -> type_of v ≠ Tdict ->
       (IAMSession._get_access_token self w).2 = Raise AttributeError).
Proof.
  unfold IAMSession._get_access_token. rewrite get_access_token_sends.
  unfold Session_request.
  intros ->. unfold response_json. split.
  - by intros ->.
  - intros v -> Hv. by destruct v.
Qed.

Lemma get_access_token_unwrapped_body_errors_witness :
  (IAMSession._get_access_token svc (world_of token_service_array [])).2
  = Raise AttributeError.
Proof.
  refine (proj2 (get_access_token_unwrapped_body_errors svc
                   (world_of token_service_array [])
                   {| status_code := 200; json_body := Some (PList []);
                      set_cookies := [] |} _) (PList []) _ _).
  - reflexivity.
  - reflexivity.
  - discriminate.
Defined.

(** ** CloudFoundryService *)

Lemma select_named_no_name (names : list string) :
  CloudFoundryService.select false None (named_service <$> names)
  = Raise CloudFoundryService.missing_service.
Proof. induction names as [|n names IH]; [done | exact IH]. Qed.

(** No name given, and none or several services listed, each with a name:
    the constructor fails. *)
Lemma init_named_services_ambiguous (json_loads : string -> option pyval)
  (names : list string) :
  length names ≠ 1%nat ->
  CloudFoundryService.init json_loads (vcap (named_service <$> names)) None
  = Raise CloudFoundryService.missing_service.
Proof.
  intros Hlen. unfold CloudFoundryService.init, vcap.
  cbn [py_get py_dict_lookup py_eq_str from_option id bind py_len py_iter].
  rewrite bool_decide_eq_true_2 by done.
  cbn [from_option id bind py_len py_iter].
  rewrite length_fmap.
  rewrite (proj2 (Z.eqb_neq (Z.of_nat (length names)) 1)) by lia.
  by rewrite select_named_no_name.
Qed.

(** The sole listed service is taken when no name is given; the port
    defaults to 443. *)
Lemma init_sole_service (json_loads : string -> option pyval) :
  CloudFoundryService.init json_loads (vcap [named_service "a"]) None
  = Ok {| CloudFoundryService._host := PStr "a.example";
          CloudFoundryService._name := PStr "a";
          CloudFoundryService._password := PStr "pw";
          CloudFoundryService._port := PInt 443;
          CloudFoundryService._username := PStr "user" |}.
Proof. reflexivity. Qed.

(** A given name selects the service that carries it. *)
Lemma init_by_name (json_loads : string -> option pyval) :
  CloudFoundryService.init json_loads
    (vcap [named_service "a"; named_service "b"]) (Some "b")
  = Ok {| CloudFoundryService._host := PStr "b.example";
          CloudFoundryService._name := PStr "b";
          CloudFoundryService._password := PStr "pw";
          CloudFoundryService._port := PInt 443;
          CloudFoundryService._username := PStr "user" |}.
Proof. reflexivity. Qed.

Lemma init_not_json (json_loads : string -> option pyval) (text : string)
  (name : option string) :
  json_loads text = None ->
  CloudFoundryService.init json_loads (PStr text) name
  = Raise (CloudantException (PStr "Failed to decode VCAP_SERVICES JSON")).
Proof.
  intros Hj. unfold CloudFoundryService.init, CloudFoundryService.loads.
  by rewrite Hj.
Qed.

Lemma init_missing_host (json_loads : string -> option pyval) :
  ∃ msg,
    CloudFoundryService.init json_loads
      (vcap [PDict [(PStr "name", PStr "a"); (PStr "credentials", PDict [])]])
      None
    = Raise (CloudantException (PStr msg)).
Proof. by eexists. Qed.

(** JSON text that is no object is not reported as a configuration error:
    the [AttributeError] of [services.get] leaves the constructor. *)
Lemma init_json_array (json_loads : string -> option pyval) (text : string)
  (name : option string) (xs : list pyval) :
  json_loads text = Some (PList xs) ->
  CloudFoundryService.init json_loads (PStr text) name = Raise AttributeError.
Proof.
  intros Hj. unfold CloudFoundryService.init, CloudFoundryService.loads.
  by rewrite Hj.
Qed.

(** C6 fails on the code when a listed service has no [name]: with no name
    given, that service is taken however many services are listed after it,
    where the spec has the constructor fail on more than one. *)
Theorem init_selects_unnamed_service (json_loads : string -> option pyval)
  (rest : list pyval) :
  CloudFoundryService.init json_loads (vcap (unnamed_service :: rest)) None
  = Ok {| CloudFoundryService._host := PStr "a.example";
          CloudFoundryService._name := PNone;
          CloudFoundryService._password := PStr "pw";
          CloudFoundryService._port := PInt 443;
          CloudFoundryService._username := PStr "user" |}.
Proof.
  unfold CloudFoundryService.init, vcap.
  cbn [py_get py_dict_lookup py_eq_str from_option id bind py_len py_iter].
  rewrite bool_decide_eq_true_2 by done.
  cbn [from_option id bind py_len py_iter].
  by destruct (_ =? _).
Qed.

(** * Further properties of the codec *)


(** X1: [py_to_couch_validate] returns, or raises one of its four argument
    errors (116, 117, 134, 135); no other exception leaves it. *)
Theorem validate_raises_argument_errors (key : string) (val : pyval) :
  py_to_couch_validate key val = Ok tt
  ∨ ∃ e, py_to_couch_validate key val = Raise e
         ∧ (UnknownOption e ∨ InvalidType e
            ∨ InvalidKeyListItem e ∨ InvalidStaleValue e).
Proof.
  destruct (dict_get key RESULT_ARG_TYPES) as [types|] eqn:Hd.
  2:{ right. unfold py_to_couch_validate. rewrite Hd.
      eexists; split; [done |]. left. by eexists. }
  destruct (decide (key = "keys")) as [->|Hk].
  - destruct (decide (type_of val = Tlist)) as [Hty|Hty].
    + destruct val; try done. rewrite validate_keys_PList.
      destruct (validate_key_list_total [Tint; Tint; Tstr; TSequence] xs)
        as [->| ->]; [by left |].
      right. eexists; split; [done |]. right; right; left. by eexists.
    + right. rewrite validate_keys_not_list by done.
      eexists; split; [done |]. right; left. by eexists.
  - rewrite (validate_declared _ _ _ Hd).
    destruct (negb _ || _).
    { right. eexists; split; [done |]. right; left. by eexists. }
    rewrite decide_False by done. cbn [bind].
    destruct (decide (key = "stale")); [|by left].
    destruct (negb _); [|by left].
    right. eexists; split; [done |]. do 3 right. by eexists.
Qed.

(** X2: [validate("stale", value)] succeeds exactly for the strings [ok] and
    [update_after]; any other string is error 135 carrying the value, and a
    value that is no string is error 117. *)
Theorem validate_stale (val : pyval) :
  (py_to_couch_validate "stale" val = Ok tt
   <-> val = PStr "ok" ∨ val = PStr "update_after")
  ∧ (∀ s, val = PStr s -> s ≠ "ok" -> s ≠ "update_after" ->
       py_to_couch_validate "stale" val
       = Raise (CloudantArgumentError 135 [AVal val]))
  ∧ (type_of val ≠ Tstr ->
       py_to_couch_validate "stale" val
       = Raise (CloudantArgumentError 117 [AStr "stale"; ATypes [Tstr]])).
Proof.
  rewrite (validate_declared "stale" [Tstr]) by done.
  destruct val as [|b|n|s|bs|xs|xs|kvs];
    try (split; [split; [done | by intros [?|?]] | split; [done | done]]).
  change (negb (isinstance (PStr s) [Tstr])
          || is_bool (PStr s) && bool_decide (Tint ∈ [Tstr])) with false.
  cbv iota. rewrite decide_False by done. cbn [bind].
  rewrite decide_True by done. cbn [py_eq_str].
  split; [|split; [|done]].
  - split.
    + do 2 case_bool_decide; cbn; try done; subst; auto.
    + intros [[= ->]|[= ->]]; done.
  - intros s' [= <-] H1 H2.
    by rewrite !bool_decide_eq_false_2.
Qed.

Lemma validate_stale_witness :
  py_to_couch_validate "stale" (PStr "fresh")
  = Raise (CloudantArgumentError 135 [AVal (PStr "fresh")]).
Proof.
  apply (proj1 (proj2 (validate_stale (PStr "fresh"))) "fresh"); done.
Defined.



(** X6: under a key that is not passed through, the converted value is a
    string, or it is the value itself and that value is an integer or
    [None]; a boolean, a list, a tuple or a dict never reaches the query
    string as it is. *)
Theorem converted_value_kinds (key : string) (val : pyval)
  (d : odict string pyval) :
  key ∉ passthrough_keys ->
  _py_to_couch_translate key val = Ok d ->
  ∃ v, d = [(key, v)]
       ∧ ((∃ s, v = PStr s)
          ∨ (v = val ∧ (val = PNone ∨ ∃ n, val = PInt n))).
Proof.
  intros Hp.
  destruct val as [|[]|n|s|bs|xs|xs|kvs];
    try (rewrite translate_not_passthrough by done); try done;
    try (intros [= <-]; eexists; split; [done |]; by eauto).
  - unfold _py_to_couch_translate. rewrite bool_decide_eq_false_2 by done.
    intros [= <-]. eexists; split; [done |]. right. auto.
  - unfold call_converter. cbn [type_of].
    change (dict_get Tlist TYPE_CONVERTERS)
      with (Some (fun x : pyval => dumps x)).
    unfold dumps. destruct (json_dumps _); [|done].
    intros [= <-]. eexists; split; [done |]. by eauto.
  - unfold call_converter. cbn [type_of].
    change (dict_get Ttuple TYPE_CONVERTERS)
      with (Some (fun x : pyval => l <~ py_list x ;; dumps l)).
    cbn [py_list py_iter bind]. unfold dumps. destruct (json_dumps _); [|done].
    intros [= <-]. eexists; split; [done |]. by eauto.
Qed.

Lemma converted_value_kinds_witness :
  ∃ v, [("reduce", PStr "false")] = [("reduce", v)]
       ∧ ((∃ s, v = PStr s)
          ∨ (v = PBool false ∧ (PBool false = PNone ∨ ∃ n, PBool false = PInt n))).
Proof.
  apply (converted_value_kinds "reduce" (PBool false)); [decided | reflexivity].
Defined.

Lemma dict_set_fresh {K V : Type} `{EqDecision K} (k : K) (v : V)
  (d : odict K V) :
  k ∉ keys d -> dict_set k v d = (d ++ [(k, v)])%list.
Proof.
  unfold keys. induction d as [|[k' v'] d IH]; intros Hk; [done |].
  rewrite fmap_cons in Hk. cbn [fst] in Hk.
  apply not_elem_of_cons in Hk as [Hne Hk].
  cbn [dict_set]. rewrite decide_False by done. by rewrite IH.
Qed.

Lemma translate_items_converted (translation : loc)
  (items : list (string * pyval)) :
  ∀ (h h' : heap) (acc : odict string pyval),
    h !! translation = Some acc ->
    NoDup (keys acc ++ keys items) ->
    translate_items translation items h = (h', Ok tt) ->
    ∃ out, h' !! translation = Some (acc ++ out)%list
           ∧ Forall2 converted items out.
Proof.
  induction items as [|[key val] items IH]; intros h h' acc Hacc Hnd.
  - intros [= <-]. exists []. by rewrite app_nil_r.
  - cbn [translate_items].
    destruct (py_to_couch_validate key val) as [[]|e] eqn:Hv; [|done].
    destruct (_py_to_couch_translate key val) as [d|e] eqn:Hd; [|done].
    destruct (translate_Ok_singleton _ _ _ Hd) as [v ->].
    unfold keys in Hnd. rewrite fmap_cons in Hnd. cbn [fst] in Hnd.
    assert (Hfresh : key ∉ keys acc).
    { apply NoDup_app in Hnd as (_ & Hdisj & _).
      intros Hin. apply (Hdisj key Hin). apply list_elem_of_here. }
    intros Hrun.
    destruct (IH (heap_update translation [(key, v)] h) h'
                (acc ++ [(key, v)])%list) as (out & Hout & Hall).
    + unfold heap_update. rewrite lookup_alter_eq, Hacc. cbn.
      by rewrite dict_set_fresh.
    + unfold keys. rewrite fmap_app, <- app_assoc. done.
    + done.
    + exists ((key, v) :: out). rewrite <- app_assoc in Hout.
      split; [done |]. by constructor.
Qed.

(** X4: when [python_to_couch] returns, its translation holds, entry for
    entry and in the order of the options, the key of the option with the
    converted value of the option, and every option passed validation. *)
Theorem python_to_couch_converts_each (h h' : heap) (options translation : loc)
  (opts : odict string pyval) :
  h !! options = Some opts ->
  NoDup (keys opts) ->
  python_to_couch options h = (h', Ok translation) ->
  ∃ out, h' !! translation = Some out ∧ Forall2 converted opts out.
Proof.
  intros Hopts Hnd. unfold python_to_couch. cbv zeta.
  assert (Hnew : h !! fresh (dom h) = None).
  { apply not_elem_of_dom. apply is_fresh. }
  assert (Hne : fresh (dom h) ≠ options) by (intros Heq; congruence).
  rewrite lookup_insert_ne, Hopts by done.
  destruct (translate_items _ opts _) as [h2 [[]|e]] eqn:Hrun; [|done].
  intros [= <- <-].
  destruct (translate_items_converted _ _ _ _ [] (lookup_insert_eq _ _ _)
              Hnd Hrun) as (out & Hout & Hall).
  by exists out.
Qed.

Lemma python_to_couch_converts_each_witness :
  ∃ out,
    (python_to_couch 1%positive
       {[ 1%positive := [("limit", PInt 5); ("reduce", PBool false)] ]}).1
    !! 2%positive = Some out
    ∧ Forall2 converted [("limit", PInt 5); ("reduce", PBool false)] out.
Proof.
  apply (python_to_couch_converts_each
           {[ 1%positive := [("limit", PInt 5); ("reduce", PBool false)] ]}
           _ 1%positive 2%positive).
  - reflexivity.
  - decided.
  - by vm_compute.
Defined.

Lemma translate_items_first_error (translation : loc)
  (pre : list (string * pyval)) (key : string) (val : pyval)
  (post : list (string * pyval)) :
  ∀ h : heap,
    Forall entry_ok pre ->
    ¬ entry_ok (key, val) ->
    ∃ (h' : heap) (e : exn),
      translate_items translation (pre ++ (key, val) :: post) h = (h', Raise e)
      ∧ (py_to_couch_validate key val = Raise e
         ∨ (py_to_couch_validate key val = Ok tt
            ∧ _py_to_couch_translate key val = Raise e))
      ∧ ∀ l, l ≠ translation -> h' !! l = h !! l.
Proof.
  induction pre as [|[k v] pre IH]; intros h Hpre Hbad.
  - cbn [app translate_items].
    destruct (py_to_couch_validate key val) as [[]|e] eqn:Hv.
    + destruct (_py_to_couch_translate key val) as [d|e] eqn:Hd.
      * exfalso. apply Hbad. split; [done | by eexists].
      * exists h, e. auto.
    + exists h, e. auto.
  - apply Forall_cons in Hpre as [[Hv [d Hd]] Hpre]. cbn in Hv, Hd.
    cbn [app translate_items]. rewrite Hv, Hd.
    destruct (IH (heap_update translation d h) Hpre Hbad)
      as (h' & e & Hrun & He & Hother).
    exists h', e. split; [done |]. split; [done |].
    intros l Hl. rewrite Hother by done.
    unfold heap_update. by rewrite lookup_alter_ne.
Qed.

(** X5: [python_to_couch] stops at the first option that fails; the
    exception is that of its validation or, when it validates, of its
    conversion; options after it are not looked at, and the options object
    and every other object of the caller are left as they were. *)
Theorem python_to_couch_first_error (h : heap) (options : loc)
  (pre : list (string * pyval)) (key : string) (val : pyval)
  (post : list (string * pyval)) :
  h !! options = Some (pre ++ (key, val) :: post)%list ->
  Forall entry_ok pre ->
  ¬ entry_ok (key, val) ->
  ∃ (h' : heap) (e : exn),
    python_to_couch options h = (h', Raise e)
    ∧ (py_to_couch_validate key val = Raise e
       ∨ (py_to_couch_validate key val = Ok tt
          ∧ _py_to_couch_translate key val = Raise e))
    ∧ ∀ l, is_Some (h !! l) -> h' !! l = h !! l.
Proof.
  intros Hopts Hpre Hbad. unfold python_to_couch. cbv zeta.
  assert (Hnew : h !! fresh (dom h) = None).
  { apply not_elem_of_dom. apply is_fresh. }
  assert (Hne : fresh (dom h) ≠ options) by (intros Heq; congruence).
  rewrite lookup_insert_ne, Hopts by done.
  destruct (translate_items_first_error (fresh (dom h)) pre key val post
              (<[fresh (dom h):=[]]> h) Hpre Hbad)
    as (h' & e & Hrun & He & Hother).
  rewrite Hrun. exists h', e. split; [done |]. split; [done |].
  intros l [x Hl].
  assert (l ≠ fresh (dom h)) by (intros ->; congruence).
  rewrite Hother, lookup_insert_ne by done. done.
Qed.

Lemma python_to_couch_first_error_witness :
  ∃ (h' : heap) (e : exn),
    python_to_couch 1%positive
      {[ 1%positive := [("limit", PInt 5); ("skip", PBool true);
                        ("bogus_key", PInt 1)] ]}
    = (h', Raise e)
    ∧ (py_to_couch_validate "skip" (PBool true) = Raise e
       ∨ (py_to_couch_validate "skip" (PBool true) = Ok tt
          ∧ _py_to_couch_translate "skip" (PBool true) = Raise e))
    ∧ ∀ l, is_Some (({[ 1%positive := [("limit", PInt 5); ("skip", PBool true);
                                        ("bogus_key", PInt 1)] ]} : heap) !! l) ->
           h' !! l
           = ({[ 1%positive := [("limit", PInt 5); ("skip", PBool true);
                                ("bogus_key", PInt 1)] ]} : heap) !! l.
Proof.
  apply (python_to_couch_first_error _ 1%positive [("limit", PInt 5)]
           "skip" (PBool true) [("bogus_key", PInt 1)]).
  - reflexivity.
  - repeat constructor. by eexists.
  - intros [Hv _]. discriminate Hv.
Defined.

(** * Further properties of the sessions *)

Section Steady.
Context (P : event -> Prop).

Lemma steady_ret {A : Type} (a : A) : steady P (ret a).
Proof.
  intros w w' r [= <- <-]. repeat split. exists []. by rewrite app_nil_r.
Qed.

Lemma steady_lift {A : Type} (r : result A) : steady P (lift r).
Proof.
  intros w w' r' [= <- <-]. repeat split. exists []. by rewrite app_nil_r.
Qed.

Lemma steady_bind {A B : Type} (c : M A) (k : A -> M B) :
  steady P c -> (∀ a, steady P (k a)) -> steady P (bindM c k).
Proof.
  intros Hc Hk w w' r. unfold bindM.
  destruct (c w) as [w1 [a|e]] eqn:E1;
    destruct (Hc _ _ _ E1) as (Hn1 & Ht1 & n1 & Hl1 & Hp1).
  - intros E2. destruct (Hk a _ _ _ E2) as (Hn2 & Ht2 & n2 & Hl2 & Hp2).
    split; [congruence |]. split; [congruence |].
    exists (n1 ++ n2)%list. rewrite Hl2, Hl1, <- app_assoc.
    split; [done |]. by apply Forall_app.
  - intros [= <- <-]. eauto.
Qed.

Lemma steady_try_except {A : Type} (c : M A) (handler : exn -> exn) :
  steady P c -> steady P (try_except c handler).
Proof.
  intros Hc w w' r. unfold try_except.
  destruct (c w) as [w1 [a|e]] eqn:E1;
    destruct (Hc _ _ _ E1) as (Hn1 & Ht1 & n1 & Hl1 & Hp1);
    intros [= <- <-]; eauto.
Qed.

Lemma steady_emit (ev : event) : P ev -> steady P (emit ev).
Proof.
  intros Hev w w' r [= <- <-]. repeat split. exists [ev].
  split; [done |]. by constructor.
Qed.

Lemma steady_clear : P EvClearExpired -> steady P clear_expired_cookies.
Proof.
  intros Hev w w' r [= <- <-]. repeat split. exists [EvClearExpired].
  split; [done |]. by constructor.
Qed.

Lemma steady_ClientSession_request (t : pyval) (from : site) (m u : string)
  (kw : odict string pyval) :
  P (EvSend from (Request m u t kw)) ->
  steady P (ClientSession.request t from m u kw).
Proof.
  intros Hev w w' r. unfold ClientSession.request, Session_request.
  destruct (dict_get "timeout" kw).
  - apply steady_lift.
  - destruct (net w _ _); intros [= <- <-]; repeat split;
      exists [EvSend from (Request m u t kw)];
      (split; [done | by constructor]).
Qed.

End Steady.

Lemma steady_impl (P Q : event -> Prop) {A : Type} (c : M A) :
  (∀ ev, P ev -> Q ev) -> steady P c -> steady Q c.
Proof.
  intros HPQ Hc w w' r E. destruct (Hc _ _ _ E) as (? & ? & new & ? & Hp).
  repeat split; try done. exists new. split; [done |].
  by apply (Forall_impl _ _ _ Hp).
Qed.

Lemma CookieSession_login_steady (self : CookieSession.t)
  (req : http_request) :
  steady (cookie_traffic self req) (CookieSession.login self).
Proof.
  unfold CookieSession.login.
  apply steady_bind; [apply steady_emit; by left |]. intros _.
  apply steady_bind; [|intros resp; apply steady_lift].
  apply steady_ClientSession_request. by right; right.
Qed.

Lemma CookieSession_request_steady (self : CookieSession.t) (m u : string)
  (kw : odict string pyval) :
  steady (cookie_traffic self (Request m u (CookieSession._timeout self) kw))
    (CookieSession.request self m u kw).
Proof.
  unfold CookieSession.request.
  apply steady_bind.
  { apply steady_ClientSession_request. by right; left. }
  intros resp. destruct (negb _); [apply steady_ret |].
  apply steady_bind; [apply steady_lift |]. intros [|]; [|apply steady_ret].
  apply steady_bind; [apply CookieSession_login_steady |]. intros _.
  apply steady_ClientSession_request. by right; left.
Qed.

Lemma get_access_token_steady (self : IAMSession.t) (req : http_request) :
  steady (iam_traffic self req) (IAMSession._get_access_token self).
Proof.
  intros w w' r. unfold IAMSession._get_access_token.
  destruct (ClientSession.request _ _ _ _ _ _) as [w1 [resp|e]] eqn:E.
  - destruct (steady_ClientSession_request (iam_traffic self req) _ _ _ _ _
                ltac:(by do 3 right; left) _ _ _ E) as (? & ? & ?).
    repeat case_match; by intros [= <- <-].
  - destruct (steady_ClientSession_request (iam_traffic self req) _ _ _ _ _
                ltac:(by do 3 right; left) _ _ _ E) as (? & ? & ?).
    by intros [= <- <-].
Qed.

Lemma IAMSession_login_steady (self : IAMSession.t) (req : http_request) :
  steady (iam_traffic self req) (IAMSession.login self).
Proof.
  unfold IAMSession.login.
  apply steady_bind; [apply steady_emit; by right; left |]. intros _.
  apply steady_bind; [apply get_access_token_steady |]. intros tok.
  apply steady_try_except.
  apply steady_bind; [apply steady_lift |]. intros data.
  apply steady_bind; [|intros resp; apply steady_lift].
  apply steady_ClientSession_request. do 4 right. by exists data.
Qed.

Lemma IAMSession_request_steady (self : IAMSession.t) (m u : string)
  (kw : odict string pyval) :
  steady (iam_traffic self (Request m u (IAMSession._timeout self) kw))
    (IAMSession.request self m u kw).
Proof.
  unfold IAMSession.request.
  apply steady_bind; [apply steady_clear; by left |]. intros _.
  apply steady_bind.
  { intros w w' r. destruct (_ && _).
    - apply IAMSession_login_steady.
    - apply steady_ret. }
  intros _. apply steady_bind.
  { apply steady_ClientSession_request. by do 2 right; left. }
  intros resp. destruct (negb _); [apply steady_ret |].
  destruct (_ =? _); [|apply steady_ret].
  apply steady_bind; [apply IAMSession_login_steady |]. intros _.
  apply steady_ClientSession_request. by do 2 right; left.
Qed.

(** X7: every request a session sends while serving [request], the caller's
    request and the requests of its logins alike, carries the timeout the
    session was built with; this holds for the cookie session and for the
    IAM session, whatever the network answers. *)
Theorem session_timeout_on_every_request :
  (∀ (self : CookieSession.t) m u kw w,
     ∃ new, log (CookieSession.request self m u kw w).1 = (log w ++ new)%list
            ∧ Forall (carries (CookieSession._timeout self)) new)
  ∧ (∀ (self : IAMSession.t) m u kw w,
       ∃ new, log (IAMSession.request self m u kw w).1 = (log w ++ new)%list
              ∧ Forall (carries (IAMSession._timeout self)) new).
Proof.
  split; intros self m u kw w.
  - destruct (CookieSession.request self m u kw w) as [w' r] eqn:E.
    destruct (CookieSession_request_steady _ _ _ _ _ _ _ E)
      as (_ & _ & new & Hl & Hp).
    exists new. split; [done |]. apply (Forall_impl _ _ _ Hp).
    by intros ev [->|[->| ->]].
  - destruct (IAMSession.request self m u kw w) as [w' r] eqn:E.
    destruct (IAMSession_request_steady _ _ _ _ _ _ _ E)
      as (_ & _ & new & Hl & Hp).
    exists new. split; [done |]. apply (Forall_impl _ _ _ Hp).
    by intros ev [->|[->|[->|[->|[data ->]]]]].
Qed.

(** X8: while it serves a request, a session sends nothing but that request,
    each time exactly as the caller gave it, and the requests of its own
    login: the cookie session posts the user name and password to its
    session URL only; the IAM session posts the API key to the token URL
    only and a token to its session URL only. *)
Theorem session_traffic :
  (∀ (self : CookieSession.t) m u kw w,
     ∃ new, log (CookieSession.request self m u kw w).1 = (log w ++ new)%list
            ∧ Forall (cookie_traffic self
                        (Request m u (CookieSession._timeout self) kw)) new)
  ∧ (∀ (self : IAMSession.t) m u kw w,
       ∃ new, log (IAMSession.request self m u kw w).1 = (log w ++ new)%list
              ∧ Forall (iam_traffic self
                          (Request m u (IAMSession._timeout self) kw)) new).
Proof.
  split; intros self m u kw w.
  - destruct (CookieSession.request self m u kw w) as [w' r] eqn:E.
    destruct (CookieSession_request_steady _ _ _ _ _ _ _ E)
      as (_ & _ & new & Hl & Hp). by exists new.
  - destruct (IAMSession.request self m u kw w) as [w' r] eqn:E.
    destruct (IAMSession_request_steady _ _ _ _ _ _ _ E)
      as (_ & _ & new & Hl & Hp). by exists new.
Qed.

(** X9: a [timeout] keyword cannot override the session's timeout. The
    cookie session refuses the call with [TypeError] before anything is
    sent and leaves its world as it was; the IAM session raises too and
    never sends the request. *)
Theorem timeout_keyword_refused (kw : odict string pyval) :
  is_Some (dict_get "timeout" kw) ->
  (∀ (self : CookieSession.t) m u w,
     CookieSession.request self m u kw w = (w, Raise TypeError))
  ∧ (∀ (self : IAMSession.t) m u w,
       (∃ e, (IAMSession.request self m u kw w).2 = Raise e)
       ∧ ∃ new, log (IAMSession.request self m u kw w).1 = (log w ++ new)%list
                ∧ issues new = 0%nat).
Proof.
  intros [t Ht]. split.
  - intros self m u w.
    unfold CookieSession.request, bindM, ClientSession.request, lift.
    by rewrite Ht.
  - intros self m u w.
    destruct (IAMSession.request self m u kw w) as [w' r] eqn:E. cbn [fst snd].
    revert E. unfold IAMSession.request, bindM at 1 2.
    cbn [clear_expired_cookies].
    set (w0 := {| net := net w; exchanges := exchanges w;
                  cookies := List.filter _ (cookies w);
                  now := now w; log := (log w ++ [EvClearExpired])%list |}).
    assert (Hsend : ∀ w1,
      bindM (ClientSession.request (IAMSession._timeout self) InRequest m u kw)
        (fun resp =>
           if negb (IAMSession._auto_renew self) then ret resp
           else if status_code resp =? 401
                then _ <<~ IAMSession.login self ;;
                     ClientSession.request (IAMSession._timeout self)
                       InRequest m u kw
                else ret resp) w1 = (w1, Raise TypeError)).
    { intros w1. unfold bindM, ClientSession.request, lift. by rewrite Ht. }
    destruct (_ && _).
    + destruct (IAMSession.login self w0) as [w1 [[]|e]] eqn:El;
        destruct (IAMSession_login_log _ _ _ _ El) as (tail & Hl & Hint);
        destruct (internal_counts _ Hint) as [Hi _].
      * rewrite Hsend. intros [= <- <-]. split; [by eexists |].
        exists (EvClearExpired :: EvLogin :: tail).
        rewrite Hl. subst w0. cbn [log]. rewrite <- app_assoc.
        split; [done |]. cbn [issues]. done.
      * intros [= <- <-]. split; [by eexists |].
        exists (EvClearExpired :: EvLogin :: tail).
        rewrite Hl. subst w0. cbn [log]. rewrite <- app_assoc.
        split; [done |]. cbn [issues]. done.
    + unfold ret at 1. rewrite Hsend. intros [= <- <-]. split; [by eexists |].
      exists [EvClearExpired]. done.
Qed.

Lemma timeout_keyword_refused_witness :
  CookieSession.request alice "GET" docs_url [("timeout", PInt 5)]
    (world_of always_401 [])
  = (world_of always_401 [], Raise TypeError).
Proof.
  apply (proj1 (timeout_keyword_refused [("timeout", PInt 5)]
                  ltac:(by eexists)) alice).
Defined.

Lemma CookieSession_login_sends (self : CookieSession.t) :
  ClientSession.request (CookieSession._timeout self) InLogin "POST"
    (CookieSession._session_url self) (CookieSession.login_kwargs self)
  = Session_request InLogin (login_request self).
Proof. reflexivity. Qed.

(** X10: [CookieSession.login] posts the user name and password to the
    session URL, with the timeout of the session, and sends nothing else.
    It returns when the answer has no error status and raises [HTTPError]
    with the status of the answer when it has one. When the server cannot be
    reached the [ConnectionError] is raised as it is. *)
Theorem CookieSession_login_outcome (self : CookieSession.t) (w : world) :
  log (CookieSession.login self w).1
  = (log w ++ [EvLogin; EvSend InLogin (login_request self)])%list
  ∧ exchanges (CookieSession.login self w).1 = S (exchanges w)
  ∧ (CookieSession.login self w).2
    = match net w (exchanges w) (login_request self) with
      | Reply resp =>
          if http_error (status_code resp)
          then Raise (HTTPError (status_code resp)) else Ok tt
      | Unreachable => Raise ConnectionError
      end.
Proof.
  split.
  - destruct (CookieSession.login self w) as [w1 out] eqn:E.
    apply (CookieSession_login_log _ _ _ _ E).
  - unfold CookieSession.login, bindM, emit, lift.
    rewrite CookieSession_login_sends. unfold Session_request.
    cbn [net exchanges].
    destruct (net w (exchanges w) (login_request self)) as [resp|]; [|done].
    unfold raise_for_status, http_error. cbn [fst snd exchanges].
    by destruct (_ && _).
Qed.

(** X12: [IAMSession.logout] empties the cookie jar, sends nothing and
    always returns; on a session with [auto_renew], the request after it
    begins with a [login()]. *)
Theorem IAMSession_logout_then_request (self : IAMSession.t) (m u : string)
  (kw : odict string pyval) (w : world) :
  (IAMSession.logout w).2 = Ok tt
  ∧ cookies (IAMSession.logout w).1 = []
  ∧ log (IAMSession.logout w).1 = log w
  ∧ exchanges (IAMSession.logout w).1 = exchanges w
  ∧ (IAMSession._auto_renew self = true ->
       ∃ tail, log (IAMSession.request self m u kw (IAMSession.logout w).1).1
               = (log w ++ EvClearExpired :: EvLogin :: tail)%list).
Proof.
  repeat split. intros Hauto.
  destruct (IAMSession.login self (cleared (IAMSession.logout w).1))
    as [w1 r] eqn:El.
  refine (proj1 (proj1 (proj2 (IAMSession_request_cases self m u kw
                                 (IAMSession.logout w).1)) Hauto _ w1 r El)).
  unfold holds_session_cookie. cbn. apply not_elem_of_nil.
Qed.

Lemma IAMSession_logout_then_request_witness :
  ∃ tail,
    log (IAMSession.request svc "GET" docs_url []
           (IAMSession.logout
              (world_of iam_ok [("IAMSession", Some 5000)])).1).1
    = ([] ++ EvClearExpired :: EvLogin :: tail)%list.
Proof.
  apply (proj2 (proj2 (proj2 (proj2
           (IAMSession_logout_then_request svc "GET" docs_url []
              (world_of iam_ok [("IAMSession", Some 5000)])))))).
  reflexivity.
Defined.

Lemma not_holds_all_expired (w : world) :
  (∀ exp, ("IAMSession", exp) ∈ cookies w -> ∃ t, exp = Some t ∧ t <= now w) ->
  ¬ holds_session_cookie (cleared w).
Proof.
  unfold holds_session_cookie, cleared, clear_expired_cookies, keys.
  cbn [fst cookies]. intros Hall Hin.
  apply list_elem_of_fmap in Hin as ([name exp] & Hname & Hin).
  cbn in Hname. subst name.
  apply list_elem_of_In, filter_In in Hin as [Hin Hlive].
  apply list_elem_of_In in Hin.
  destruct (Hall _ Hin) as (t & -> & Ht). cbn in Hlive.
  apply negb_true_iff, Z.leb_gt in Hlive. lia.
Qed.

Lemma holds_live (w : world) (exp : option Z) :
  ("IAMSession", exp) ∈ cookies w ->
  (∀ t, exp = Some t -> now w < t) ->
  holds_session_cookie (cleared w).
Proof.
  unfold holds_session_cookie, cleared, clear_expired_cookies, keys.
  cbn [fst cookies]. intros Hin Hlive.
  apply list_elem_of_fmap. exists ("IAMSession", exp). split; [done |].
  apply list_elem_of_In, filter_In. split; [by apply list_elem_of_In |].
  cbn. destruct exp as [t|]; [|done].
  apply negb_true_iff, Z.leb_gt. by apply Hlive.
Qed.

(** X13: on a session with [auto_renew], [IAMSession.request] logs in before
    its first attempt exactly when no live session cookie is held: when
    every [IAMSession] cookie of the jar has expired (or there is none) the
    record goes on with [login()]; when one is live (no expiry time, or one
    in the future) the first thing sent is the request itself. *)
Theorem IAMSession_proactive_login_iff_no_live_cookie (self : IAMSession.t)
  (m u : string) (kw : odict string pyval) (w : world) :
  IAMSession._auto_renew self = true ->
  dict_get "timeout" kw = None ->
  ((∀ exp, ("IAMSession", exp) ∈ cookies w -> ∃ t, exp = Some t ∧ t <= now w) ->
     ∃ tail, log (IAMSession.request self m u kw w).1
             = (log w ++ EvClearExpired :: EvLogin :: tail)%list)
  ∧ (∀ exp, ("IAMSession", exp) ∈ cookies w ->
       (∀ t, exp = Some t -> now w < t) ->
       ∃ tail, log (IAMSession.request self m u kw w).1
               = (log w ++ EvClearExpired
                    :: EvSend InRequest
                         (Request m u (IAMSession._timeout self) kw)
                    :: tail)%list).
Proof.
  intros Hauto Hkw. split.
  - intros Hall.
    destruct (IAMSession.login self (cleared w)) as [w1 r] eqn:El.
    exact (proj1 (proj1 (proj2 (IAMSession_request_cases self m u kw w))
                    Hauto (not_holds_all_expired _ Hall) w1 r El)).
  - intros exp Hin Hlive.
    assert (Hw1 : first_attempt_world self w (cleared w)).
    { unfold first_attempt_world.
      rewrite Hauto, (bool_decide_eq_true_2 _ (holds_live _ _ Hin Hlive)).
      done. }
    rewrite (IAMSession_request_from_first_attempt _ _ _ _ _ _ Hw1).
    destruct (ClientSession.request _ _ _ _ _ (cleared w))
      as [w2 [resp|e]] eqn:E1;
      pose proof (ClientSession_request_log _ _ _ _ _ _ _ _ Hkw E1) as Hl1;
      rewrite cleared_log, <- app_assoc in Hl1; [|by exists []].
    destruct (negb _); [by exists [] |].
    destruct (_ =? _); [|by exists []].
    destruct (IAMSession.login self w2) as [w3 [[]|e]] eqn:E2;
      destruct (IAMSession_login_log _ _ _ _ E2) as (t2 & Ht2 & _).
    + destruct (ClientSession.request _ _ _ _ _ w3) as [w4 out] eqn:E3.
      destruct (ClientSession_request_extends _ _ _ _ _ _ _ _ E3) as [t3 Ht3].
      cbn [fst]. rewrite Ht3, Ht2, Hl1, <- !app_assoc. by eexists.
    + cbn [fst]. rewrite Ht2, Hl1, <- !app_assoc. by eexists.
Qed.

Lemma IAMSession_proactive_login_iff_no_live_cookie_witness :
  ∃ tail,
    log (IAMSession.request svc "GET" docs_url []
           (world_of iam_ok [("IAMSession", Some 999)])).1
    = ([] ++ EvClearExpired :: EvLogin :: tail)%list.
Proof.
  apply (proj1 (IAMSession_proactive_login_iff_no_live_cookie svc "GET"
                  docs_url [] (world_of iam_ok [("IAMSession", Some 999)])
                  eq_refl eq_refl)).
  intros exp Hin. apply list_elem_of_singleton in Hin as [= ->].
  exists 999. split; [reflexivity |]. cbn. lia.
Defined.

(** X14: [IAMSession.login] never lets an exception of the transport out.
    When the token cannot be had, that error is raised and the session URL
    is never contacted; when it is had, it is posted as JSON to the session
    URL, and an error status or an unreachable server there is the
    exchange error. *)
Theorem IAMSession_login_outcomes (self : IAMSession.t) (w : world) :
  (∀ e, (IAMSession.login self w).2 = Raise e -> is_RequestException e = false)
  ∧ (∀ w1 e,
       IAMSession._get_access_token self (emit EvLogin w).1 = (w1, Raise e) ->
       IAMSession.login self w = (w1, Raise e)
       ∧ log w1 = (log w ++ [EvLogin;
                             EvSend InGetAccessToken (token_request self)])%list)
  ∧ (∀ w1 tok data,
       IAMSession._get_access_token self (emit EvLogin w).1 = (w1, Ok tok) ->
       json_dumps (PDict [(PStr "access_token", tok)]) = Some data ->
       (IAMSession.login self w).2
       = match net w1 (exchanges w1)
                 (Request "POST" (IAMSession._session_url self)
                    (IAMSession._timeout self)
                    (IAMSession.exchange_kwargs (PStr data))) with
         | Reply resp =>
             if http_error (status_code resp)
             then Raise (CloudantException IAMSession.exchange_failed)
             else Ok tt
         | Unreachable => Raise (CloudantException IAMSession.exchange_failed)
         end).
Proof.
  assert (Hwrap : ∀ e0 msg,
    is_RequestException
      (if is_RequestException e0 then CloudantException msg else e0) = false).
  { intros e0 msg. by destruct (is_RequestException e0) eqn:E0. }
  split; [|split].
  - intros e. unfold IAMSession.login, bindM, try_except, emit, lift.
    destruct (IAMSession._get_access_token _ _) as [w1 [tok|e1]] eqn:Et.
    + destruct (dumps _) as [data|e2];
        [|cbn [snd]; intros [= <-]; apply Hwrap].
      destruct (ClientSession.request _ _ _ _ _ _) as [w2 [resp|e2]].
      * destruct (raise_for_status resp); [done |].
        cbn [snd]. intros [= <-]. apply Hwrap.
      * cbn [snd]. intros [= <-]. apply Hwrap.
    + cbn [snd]. intros [= <-].
      apply (get_access_token_no_transport_exception self
               {| net := net w; exchanges := exchanges w;
                  cookies := cookies w; now := now w;
                  log := (log w ++ [EvLogin])%list |}).
      by rewrite Et.
  - intros w1 e Et. split.
    + unfold IAMSession.login, bindM at 1 2. cbn [emit fst] in Et |- *.
      by rewrite Et.
    + rewrite (get_access_token_log _ _ _ _ Et). cbn [emit fst log].
      by rewrite <- app_assoc.
  - intros w1 tok data Et Hd.
    unfold IAMSession.login, bindM at 1 2. cbn [emit fst] in Et |- *.
    rewrite Et. unfold try_except, bindM, lift, dumps. rewrite Hd.
    unfold ClientSession.request.
    change (dict_get "timeout" (IAMSession.exchange_kwargs (PStr data)))
      with (@None pyval).
    unfold Session_request.
    destruct (net w1 _ _) as [resp|]; [|done].
    unfold raise_for_status, http_error. by destruct (_ && _).
Qed.

(** X15: [_get_access_token] posts to the token URL once. When the server
    cannot be reached it raises the contact error; on a body that is a JSON
    object it raises, for an error status, the [errorMessage] of the body or
    else the contact error, and otherwise returns the [access_token] of the
    body or, when there is none, raises the invalid-response error. No
    exception of the transport leaves it. *)
Theorem get_access_token_outcomes (self : IAMSession.t) (w : world) :
  log (IAMSession._get_access_token self w).1
  = (log w ++ [EvSend InGetAccessToken (token_request self)])%list
  ∧ (net w (exchanges w) (token_request self) = Unreachable ->
       (IAMSession._get_access_token self w).2
       = Raise (CloudantException IAMSession.contact_failed))
  ∧ (∀ resp kvs,
       net w (exchanges w) (token_request self) = Reply resp ->
       json_body resp = Some (PDict kvs) ->
       (IAMSession._get_access_token self w).2
       = if http_error (status_code resp) then
           Raise (CloudantException
                    (from_option id IAMSession.contact_failed
                       (py_dict_lookup "errorMessage" kvs)))
         else match py_dict_lookup "access_token" kvs with
              | Some access_token => Ok access_token
              | None => Raise (CloudantException IAMSession.invalid_response)
              end)
  ∧ (∀ e, (IAMSession._get_access_token self w).2 = Raise e ->
       is_RequestException e = false).
Proof.
  split; [|split; [|split]].
  - destruct (IAMSession._get_access_token self w) as [w1 out] eqn:E.
    apply (get_access_token_log _ _ _ _ E).
  - apply get_access_token_unreachable.
  - apply get_access_token_object_body.
  - apply get_access_token_no_transport_exception.
Qed.

Lemma get_access_token_outcomes_witness :
  (IAMSession._get_access_token svc (world_of iam_ok [])).2 = Ok (PStr "tok").
Proof.
  apply (proj1 (proj2 (proj2 (get_access_token_outcomes svc
                                (world_of iam_ok []))))
           {| status_code := 200;
              json_body := Some (PDict [(PStr "access_token", PStr "tok")]);
              set_cookies := [] |}
           [(PStr "access_token", PStr "tok")]); reflexivity.
Defined.

(** A response that [request] returns is an answer of the network to the
    request. *)
Lemma CookieSession_request_reply (self : CookieSession.t) (m u : string)
  (kw : odict string pyval) (w w' : world) (resp : response) :
  CookieSession.request self m u kw w = (w', Ok resp) ->
  ∃ n, net w n (Request m u (CookieSession._timeout self) kw) = Reply resp.
Proof.
  unfold CookieSession.request, bindM, lift, ret.
  destruct (ClientSession.request _ _ _ _ _ w) as [w1 [resp0|e]] eqn:E1;
    [|done].
  destruct (ClientSession_request_Ok _ _ _ _ _ _ _ _ E1) as (_ & _ & Hn1 & Hr1).
  destruct (negb _); [intros [= <- <-]; eauto |].
  destruct (CookieSession.is_expired resp0) as [[]|e]; [| |done].
  - destruct (CookieSession.login self w1) as [w2 [[]|e]] eqn:E2; [|done].
    destruct (CookieSession_login_steady self
                (Request m u (CookieSession._timeout self) kw) _ _ _ E2)
      as (Hn2 & _).
    intros E3.
    destruct (ClientSession_request_Ok _ _ _ _ _ _ _ _ E3) as (_ & _ & _ & Hr3).
    exists (exchanges w2). by rewrite <- Hn1, <- Hn2.
  - intros [= <- <-]. eauto.
Qed.

Lemma IAMSession_request_reply (self : IAMSession.t) (m u : string)
  (kw : odict string pyval) (w w' : world) (resp : response) :
  IAMSession.request self m u kw w = (w', Ok resp) ->
  ∃ n, net w n (Request m u (IAMSession._timeout self) kw) = Reply resp.
Proof.
  unfold IAMSession.request, bindM at 1 2. cbn [clear_expired_cookies].
  set (w0 := {| net := net w; exchanges := exchanges w;
                cookies := List.filter _ (cookies w);
                now := now w; log := (log w ++ [EvClearExpired])%list |}).
  assert (Hrest : ∀ w1, net w1 = net w ->
    bindM (ClientSession.request (IAMSession._timeout self) InRequest m u kw)
      (fun resp =>
         if negb (IAMSession._auto_renew self) then ret resp
         else if status_code resp =? 401
              then _ <<~ IAMSession.login self ;;
                   ClientSession.request (IAMSession._timeout self)
                     InRequest m u kw
              else ret resp) w1 = (w', Ok resp) ->
    ∃ n, net w n (Request m u (IAMSession._timeout self) kw) = Reply resp).
  { intros w1 Hn0. unfold bindM, ret.
    destruct (ClientSession.request _ _ _ _ _ w1) as [w2 [resp0|e]] eqn:E1;
      [|done].
    destruct (ClientSession_request_Ok _ _ _ _ _ _ _ _ E1)
      as (_ & _ & Hn1 & Hr1).
    destruct (negb _); [intros [= <- <-]; exists (exchanges w1); congruence |].
    destruct (_ =? _); [|intros [= <- <-]; exists (exchanges w1); congruence].
    destruct (IAMSession.login self w2) as [w3 [[]|e]] eqn:E2; [|done].
    destruct (IAMSession_login_steady self
                (Request m u (IAMSession._timeout self) kw) _ _ _ E2)
      as (Hn2 & _).
    intros E3.
    destruct (ClientSession_request_Ok _ _ _ _ _ _ _ _ E3) as (_ & _ & _ & Hr3).
    exists (exchanges w3). congruence. }
  destruct (_ && _).
  - destruct (IAMSession.login self w0) as [w1 [[]|e]] eqn:El; [|done].
    destruct (IAMSession_login_steady self
                (Request m u (IAMSession._timeout self) kw) _ _ _ El)
      as (Hn & _).
    apply Hrest. by rewrite Hn.
  - unfold ret at 1. by apply Hrest.
Qed.

(** X11: when [info()] returns, on the cookie session or on the IAM session,
    what it returns is the JSON body of an answer of the network to a GET of
    the session URL, and that answer has no error status. On the cookie
    session the call goes through [request]: it sends the GET at most twice
    and logs in at most once. *)
Theorem session_info_result :
  (∀ (self : CookieSession.t) w w' v,
     CookieSession.info self w = (w', Ok v) ->
     ∃ n resp,
       net w n (Request "GET" (CookieSession._session_url self)
                  (CookieSession._timeout self)
                  [("allow_redirects", PBool true)]) = Reply resp
       ∧ http_error (status_code resp) = false
       ∧ json_body resp = Some v)
  ∧ (∀ (self : IAMSession.t) w w' v,
       IAMSession.info self w = (w', Ok v) ->
       ∃ n resp,
         net w n (Request "GET" (IAMSession._session_url self)
                    (IAMSession._timeout self)
                    [("allow_redirects", PBool true)]) = Reply resp
         ∧ http_error (status_code resp) = false
         ∧ json_body resp = Some v)
  ∧ (∀ (self : CookieSession.t) w,
       ∃ new, log (CookieSession.info self w).1 = (log w ++ new)%list
              ∧ (issues new <= 2)%nat ∧ (logins new <= 1)%nat).
Proof.
  split; [|split].
  - intros self w w' v. unfold CookieSession.info, Session_get, bindM, lift.
    change (dict_setdefault "allow_redirects" (PBool true) [])
      with [("allow_redirects", PBool true)].
    destruct (CookieSession.request _ _ _ _ _) as [w1 [resp|e]] eqn:E; [|done].
    destruct (CookieSession_request_reply _ _ _ _ _ _ _ E) as [n Hn].
    unfold raise_for_status, response_json, http_error.
    destruct (_ && _) eqn:Es; [done |].
    destruct (json_body resp) as [v'|] eqn:Hb; [|done].
    intros [= <- <-]. by exists n, resp.
  - intros self w w' v. unfold IAMSession.info, Session_get, bindM, lift.
    change (dict_setdefault "allow_redirects" (PBool true) [])
      with [("allow_redirects", PBool true)].
    destruct (IAMSession.request _ _ _ _ _) as [w1 [resp|e]] eqn:E; [|done].
    destruct (IAMSession_request_reply _ _ _ _ _ _ _ E) as [n Hn].
    unfold raise_for_status, response_json, http_error.
    destruct (_ && _) eqn:Es; [done |].
    destruct (json_body resp) as [v'|] eqn:Hb; [|done].
    intros [= <- <-]. by exists n, resp.
  - intros self w. unfold CookieSession.info, Session_get, bindM, lift.
    destruct (CookieSession_request_bounded self "GET"
                (CookieSession._session_url self)
                (dict_setdefault "allow_redirects" (PBool true) []) w)
      as (new & Hl & Hi & Hlg).
    destruct (CookieSession.request _ _ _ _ _) as [w1 [resp|e]]; [|by eauto].
    destruct (raise_for_status resp); [|by eauto].
    destruct (response_json resp); by eauto.
Qed.

Lemma session_info_result_witness :
  ∃ n resp,
    net (world_of expired_once []) n
      (Request "GET" (CookieSession._session_url alice)
         (CookieSession._timeout alice) [("allow_redirects", PBool true)])
    = Reply resp
    ∧ http_error (status_code resp) = false
    ∧ json_body resp = Some (PDict [(PStr "ok", PBool true)]).
Proof.
  apply (proj1 session_info_result alice (world_of expired_once [])
           (CookieSession.info alice (world_of expired_once [])).1).
  reflexivity.
Defined.

(** * Further properties of the helpers *)

Lemma dict_update_fresh {K V : Type} `{EqDecision K} (l : odict K V) :
  ∀ acc : odict K V,
    NoDup (keys acc ++ keys l) -> dict_update acc l = (acc ++ l)%list.
Proof.
  unfold dict_update.
  induction l as [|[k v] l IH]; intros acc Hnd; cbn [foldl].
  - by rewrite app_nil_r.
  - unfold keys in Hnd. rewrite fmap_cons in Hnd. cbn [fst] in Hnd.
    assert (Hk : k ∉ keys acc).
    { apply NoDup_app in Hnd as (_ & Hdisj & _).
      intros Hin. apply (Hdisj k Hin). apply list_elem_of_here. }
    cbn [fst snd]. rewrite dict_set_fresh by done.
    rewrite IH.
    + by rewrite <- app_assoc.
    + unfold keys. by rewrite fmap_app, <- app_assoc.
Qed.

Lemma dict_del_keys {K V : Type} `{EqDecision K} (k : K) (d : odict K V) :
  NoDup (keys d) ->
  (k ∉ keys (dict_del k d)) ∧ NoDup (keys (dict_del k d))
  ∧ (∀ x, x ∈ keys (dict_del k d) -> x ∈ keys d).
Proof.
  unfold keys. induction d as [|[k' v'] d IH]; intros Hnd.
  - cbn. split; [apply not_elem_of_nil |]. split; [constructor | done].
  - rewrite fmap_cons in Hnd. cbn [fst] in Hnd.
    apply NoDup_cons in Hnd as [Hk' Hnd]. cbn [dict_del].
    destruct (decide (k = k')) as [->|Hne].
    + split; [done |]. split; [done |]. intros x Hx.
      rewrite fmap_cons. by apply list_elem_of_further.
    + destruct (IH Hnd) as (Hk & Hnd' & Hsub).
      rewrite !fmap_cons. cbn [fst]. split; [|split].
      * intros Hin. apply elem_of_cons in Hin as [?|?]; done.
      * apply NoDup_cons. split; [|done]. intros Hin. by apply Hk', Hsub.
      * intros x Hx. apply elem_of_cons in Hx as [->|Hx].
        -- apply list_elem_of_here.
        -- apply list_elem_of_further. by apply Hsub.
Qed.

Lemma translate_converted (options out : odict string pyval) :
  NoDup (keys options) ->
  translate options = Ok out ->
  Forall2 converted options out.
Proof.
  intros Hnd. unfold translate, dict_of.
  rewrite (dict_update_fresh options []) by done. cbn [app].
  destruct (python_to_couch _ _) as [h' [t|e]] eqn:E; [|done].
  destruct (h' !! t) as [d|] eqn:Hd; [|done]. intros [= <-].
  unfold python_to_couch in E. cbv zeta in E.
  set (t0 := fresh (dom ({[1%positive := options]} : heap))) in E.
  assert (Hne : t0 ≠ 1%positive).
  { intros Heq. pose proof (is_fresh (dom ({[1%positive := options]} : heap)))
      as Hf. fold t0 in Hf. rewrite Heq in Hf. apply Hf.
    apply elem_of_dom. by rewrite lookup_singleton_eq. }
  rewrite lookup_insert_ne, lookup_singleton_eq in E by done.
  destruct (translate_items _ _ _) as [h2 [[]|e]] eqn:Hrun; [|done].
  injection E as <- <-.
  destruct (translate_items_converted _ _ _ _ [] (lookup_insert_eq _ _ _)
              Hnd Hrun) as (out' & Hout & Hall).
  cbn [app] in Hout. congruence.
Qed.

Lemma converted_keys (options out : odict string pyval) :
  Forall2 converted options out -> keys out = keys options.
Proof.
  unfold keys. induction 1 as [|kv kv' l l' (Hk & _) _ IH]; [done |].
  rewrite !fmap_cons. by rewrite Hk, IH.
Qed.

(** X16: [get_docs] checks before it sends. When the [keys] cannot be
    written as JSON, or an option fails validation or conversion, that
    exception is raised and the session is not used at all: its world is
    left as it was. A failure of the [keys] comes before a failure of the
    options. *)
Theorem get_docs_checks_before_sending
  (r_session : string -> string -> odict string pyval -> M response)
  (url : string) (encoder : option (pyval -> option string))
  (headers : option (odict string pyval)) (params : odict string pyval)
  (w : world) :
  (from_option id PNone (dict_get "keys" params) ≠ PNone ->
   ∀ e, dumps_with encoder
          (PDict [(PStr "keys", from_option id PNone (dict_get "keys" params))])
        = Raise e ->
        get_docs r_session url encoder headers params w = (w, Raise e))
  ∧ (from_option id PNone (dict_get "keys" params) = PNone
     ∨ (∃ k, dumps_with encoder
               (PDict [(PStr "keys",
                        from_option id PNone (dict_get "keys" params))])
             = Ok k) ->
     ∀ e, translate (dict_del "keys" params) = Raise e ->
          get_docs r_session url encoder headers params w = (w, Raise e)).
Proof.
  unfold get_docs, dict_pop. cbv zeta. cbn [fst snd].
  set (keys_list := from_option id PNone (dict_get "keys" params)).
  split.
  - intros Hk e He. unfold bindM at 1, lift at 1.
    destruct keys_list; [done | | | | | | |]; by rewrite He.
  - intros Hkeys e He. unfold bindM at 1 2, lift at 1 2.
    destruct Hkeys as [->|[k Hd]]; [by rewrite He |].
    rewrite Hd, He. by destruct keys_list.
Qed.

Lemma get_docs_checks_before_sending_witness :
  get_docs (CookieSession.request alice) docs_url None None
    [("keys", PList [PInt 1]); ("bogus_key", PInt 1)] (world_of always_401 [])
  = (world_of always_401 [], Raise (CloudantArgumentError 116 [AStr "bogus_key"])).
Proof.
  apply (proj2 (get_docs_checks_before_sending
                  (CookieSession.request alice) docs_url None None
                  [("keys", PList [PInt 1]); ("bogus_key", PInt 1)]
                  (world_of always_401 []))).
  - right. by eexists.
  - reflexivity.
Defined.

(** X17: once its checks pass, [get_docs] uses the session once. Without
    [keys] (absent, or [None]) it is a GET with the translated options as
    query parameters. With [keys] it is a POST whose body is the JSON text of
    [{"keys": ...}], with the [Content-Type] header set to
    [application/json]; the [keys] are not validated as an option and are
    never among the query parameters. An answer with an error status is
    raised as [HTTPError]; any other answer is returned. *)
Theorem get_docs_sends_once
  (r_session : string -> string -> odict string pyval -> M response)
  (url : string) (encoder : option (pyval -> option string))
  (headers : option (odict string pyval))
  (params f_params : odict string pyval) (w : world) :
  NoDup (keys params) ->
  translate (dict_del "keys" params) = Ok f_params ->
  dict_get "keys" f_params = None
  ∧ (from_option id PNone (dict_get "keys" params) = PNone ->
     get_docs r_session url encoder headers params w
     = match r_session "GET" url
               [("headers", from_option as_dict PNone headers);
                ("params", as_dict f_params);
                ("allow_redirects", PBool true)] w with
       | (w', Ok resp) =>
           (w', if http_error (status_code resp)
                then Raise (HTTPError (status_code resp)) else Ok resp)
       | (w', Raise e) => (w', Raise e)
       end)
  ∧ (∀ body,
       from_option id PNone (dict_get "keys" params) ≠ PNone ->
       dumps_with encoder
         (PDict [(PStr "keys", from_option id PNone (dict_get "keys" params))])
       = Ok (PStr body) ->
       get_docs r_session url encoder headers params w
       = match r_session "POST" url
                 [("data", PStr body);
                  ("json", PNone);
                  ("headers",
                   as_dict (dict_set "Content-Type" (PStr "application/json")
                              (from_option id [] headers)));
                  ("params", as_dict f_params)] w with
         | (w', Ok resp) =>
             (w', if http_error (status_code resp)
                  then Raise (HTTPError (status_code resp)) else Ok resp)
         | (w', Raise e) => (w', Raise e)
         end).
Proof.
  intros Hnd Ht.
  destruct (dict_del_keys "keys" params Hnd) as (Hk & Hnd' & _).
  split; [|split].
  - apply dict_get_None_keys.
    by rewrite (converted_keys _ _ (translate_converted _ _ Hnd' Ht)).
  - intros Hnone. unfold get_docs, dict_pop. cbv zeta. cbn [fst snd].
    rewrite Hnone, Ht. unfold bindM, lift, ret, Session_get.
    change (dict_setdefault "allow_redirects" (PBool true)
              [("headers", from_option as_dict PNone headers);
               ("params", as_dict f_params)])
      with [("headers", from_option as_dict PNone headers);
            ("params", as_dict f_params); ("allow_redirects", PBool true)].
    destruct (r_session _ _ _ w) as [w' [resp|e]]; [|done].
    unfold raise_for_status, http_error. by destruct (_ && _).
  - intros body Hsome Hd. unfold get_docs, dict_pop. cbv zeta. cbn [fst snd].
    unfold bindM at 1 2, lift at 1 2.
    destruct (from_option id PNone (dict_get "keys" params)) eqn:Hkl;
      [done | | | | | | |]; rewrite Hd, Ht;
      unfold bindM, lift, ret, Session_post;
      (destruct (r_session _ _ _ w) as [w' [resp|e]]; [|done]);
      unfold raise_for_status, http_error; by destruct (_ && _).
Qed.

Lemma get_docs_sends_once_witness :
  get_docs (CookieSession.request alice) docs_url None None
    [("keys", PList [PBool true]); ("limit", PInt 5)] (world_of expired_once [])
  = match CookieSession.request alice "POST" docs_url
            [("data", PStr (String "{" (String quote_char
                        ("keys" ++ String quote_char ": [true]}"))));
             ("json", PNone);
             ("headers",
              as_dict [("Content-Type", PStr "application/json")]);
             ("params", as_dict [("limit", PInt 5)])]
            (world_of expired_once []) with
    | (w', Ok resp) =>
        (w', if http_error (status_code resp)
             then Raise (HTTPError (status_code resp)) else Ok resp)
    | (w', Raise e) => (w', Raise e)
    end.
Proof.
  apply (proj2 (proj2 (get_docs_sends_once (CookieSession.request alice)
                         docs_url None None
                         [("keys", PList [PBool true]); ("limit", PInt 5)]
                         [("limit", PInt 5)] (world_of expired_once [])
                         ltac:(decided) eq_refl))).
  - discriminate.
  - reflexivity.
Defined.

Lemma append_empty_r (s : string) : s ++ "" = s.
Proof.
  induction s as [|a s IH]; [reflexivity|].
  change (String a (s ++ "") = String a s). by rewrite IH.
Qed.

(** X18: [append_response_error_content] leaves the reason as it is below
    status 400 and when the body is not JSON; on a body that is a JSON
    object it appends a blank, the [error], a blank and the [reason] of the
    body (each empty when absent); whenever it returns, the old reason is
    still the start of the new one. On a JSON body that is no object the
    [AttributeError] is not swallowed. *)
Theorem append_response_error_content_reason (container_str : pyval -> string)
  (resp : response) (reason : string) :
  (status_code resp < 400 ->
     append_response_error_content container_str resp reason = Ok reason)
  ∧ (json_body resp = None ->
       append_response_error_content container_str resp reason = Ok reason)
  ∧ (400 <= status_code resp ->
     ∀ kvs, json_body resp = Some (PDict kvs) ->
       append_response_error_content container_str resp reason
       = Ok (reason ++ " "
             ++ py_str container_str
                  (from_option id (PStr "") (py_dict_lookup "error" kvs))
             ++ " "
             ++ py_str container_str
                  (from_option id (PStr "") (py_dict_lookup "reason" kvs))))
  ∧ (400 <= status_code resp ->
     ∀ v, json_body resp = Some v -> type_of v ≠ Tdict ->
       append_response_error_content container_str resp reason
       = Raise AttributeError)
  ∧ (∀ reason', append_response_error_content container_str resp reason
                = Ok reason' ->
       ∃ suffix, reason' = reason ++ suffix).
Proof.
  unfold append_response_error_content, response_json.
  split; [|split; [|split; [|split]]].
  - intros Hs. by rewrite (proj2 (Z.leb_gt _ _) Hs).
  - intros ->. by destruct (_ <=? _).
  - intros Hs kvs ->. by rewrite (proj2 (Z.leb_le _ _) Hs).
  - intros Hs v -> Hv. rewrite (proj2 (Z.leb_le _ _) Hs). by destruct v.
  - intros reason'. destruct (_ <=? _).
    2:{ intros [= <-]. exists "". by rewrite append_empty_r. }
    destruct (json_body resp) as [v|]; cbn [bind].
    + destruct v; try done. cbn [py_get bind]. intros [= <-]. by eexists.
    + intros [= <-]. exists "". by rewrite append_empty_r.
Qed.

Lemma append_response_error_content_reason_witness :
  append_response_error_content (fun _ => "")
    {| status_code := 404;
       json_body := Some (PDict [(PStr "error", PStr "not_found");
                                 (PStr "reason", PStr "missing")]);
       set_cookies := [] |} "Object Not Found"
  = Ok "Object Not Found not_found missing".
Proof.
  pose proof (proj1 (proj2 (proj2 (append_response_error_content_reason
                                     (fun _ => "")
                                     {| status_code := 404;
                                        json_body :=
                                          Some (PDict [(PStr "error", PStr "not_found");
                                                       (PStr "reason", PStr "missing")]);
                                        set_cookies := [] |}
                                     "Object Not Found")))) as H.
  cbn [status_code json_body] in H.
  exact (H ltac:(lia) _ eq_refl).
Defined.

(** ** CloudFoundryService *)

Lemma select_skip (name : option string) (pre rest : list pyval) :
  Forall (other_name name) pre ->
  CloudFoundryService.select false name (pre ++ rest)%list
  = CloudFoundryService.select false name rest.
Proof.
  induction 1 as [|s pre (skvs & -> & Hn) _ IH]; [done|].
  cbn [app CloudFoundryService.select py_get bind]. by rewrite Hn.
Qed.

Lemma select_named_here (name : option string) (skvs : list (pyval * pyval))
  (post : list pyval) :
  CloudFoundryService.eq_name
    (from_option id PNone (py_dict_lookup "name" skvs)) name = true ->
  CloudFoundryService.select false name (PDict skvs :: post)
  = CloudFoundryService.select true None [PDict skvs].
Proof.
  intros Hn. cbn [CloudFoundryService.select py_get bind]. rewrite Hn.
  repeat (match goal with
          | |- context [bind ?r _] =>
              lazymatch r with
              | Ok _ => cbn [bind]
              | Raise _ => cbn [bind]
              | _ => destruct r; cbn [bind]
              end
          end); done.
Qed.

Lemma init_selected (json_loads : string -> option pyval)
  (name : option string) (pre : list pyval) (skvs : list (pyval * pyval))
  (post : list pyval) :
  selects name pre skvs post ->
  CloudFoundryService.init json_loads (vcap (pre ++ PDict skvs :: post)%list)
    name
  = CloudFoundryService.init json_loads (vcap [PDict skvs]) None.
Proof.
  intros [(-> & -> & ->)|[Hpre Hn]]; [done|].
  unfold CloudFoundryService.init, vcap.
  cbn [py_get py_dict_lookup py_eq_str from_option id bind].
  rewrite bool_decide_eq_true_2 by done.
  cbn [from_option id bind py_len py_iter length Z.of_nat Z.eqb Pos.eqb
       Pos.of_succ_nat].
  assert (CloudFoundryService.select false name (pre ++ PDict skvs :: post)%list
          = CloudFoundryService.select true None [PDict skvs]) as Hsel
    by (by rewrite select_skip, select_named_here).
  destruct name as [n|]; cbn [bind]; [by rewrite Hsel|].
  destruct (_ =? 1) eqn:Hlen; cbn [bind]; [|by rewrite Hsel].
  apply Z.eqb_eq in Hlen. rewrite length_app in Hlen. cbn [length] in Hlen.
  destruct pre; [|cbn [length] in Hlen; lia].
  destruct post; [done | cbn [length] in Hlen; lia].
Qed.

Ltac read_service skvs ckvs :=
  cbn [py_getitem py_get bind];
  let c := fresh "c" in
  destruct (py_dict_lookup "credentials" skvs) as [c|] eqn:?; [|done];
  cbn [bind]; destruct c as [| | | | | | |ckvs]; try done;
  cbn [py_getitem py_get bind];
  destruct (py_dict_lookup "host" ckvs) eqn:?; [|done]; cbn [bind];
  destruct (py_dict_lookup "password" ckvs) eqn:?; [|done]; cbn [bind];
  destruct (py_dict_lookup "username" ckvs) eqn:?; [|done]; cbn [bind].

Lemma select_sound (use_first : bool) (name : option string)
  (listed : list pyval) (self : CloudFoundryService.t) :
  CloudFoundryService.select use_first name listed = Ok self ->
  ∃ service,
    service ∈ listed
    ∧ describes service self
    ∧ (use_first = false ->
       CloudFoundryService.eq_name (CloudFoundryService._name self) name
       = true)
    ∧ (use_first = true -> ∃ rest, listed = service :: rest).
Proof.
  destruct use_first.
  - destruct listed as [|s rest]; [done|].
    cbn [CloudFoundryService.select bind].
    destruct s as [| | | | | | |skvs]; try done.
    read_service skvs ckvs. intros [= <-]. exists (PDict skvs).
    split; [left|]. split; [by exists skvs, ckvs|]. split; [done|].
    by eexists.
  - induction listed as [|s rest IH]; [done|].
    cbn [CloudFoundryService.select].
    destruct s as [| | | | | | |skvs]; try done.
    cbn [py_get bind].
    destruct (CloudFoundryService.eq_name
                (from_option id PNone (py_dict_lookup "name" skvs)) name)
      eqn:Hn.
    + read_service skvs ckvs. intros [= <-]. exists (PDict skvs).
      split; [left|]. split; [by exists skvs, ckvs|]. by split.
    + intros (service & Hin & Hd & Hf & _)%IH. exists service.
      split; [by right|]. by repeat split.
Qed.

Lemma py_len_py_iter (v : pyval) (n : Z) (xs : list pyval) :
  py_len v = Ok n -> py_iter v = Ok xs -> n = Z.of_nat (length xs).
Proof.
  destruct v; try done; cbn [py_len py_iter]; intros [= <-] [= <-];
    rewrite ?length_fmap; try done.
  f_equal. induction s as [|a s IH]; [done|]. cbn. by rewrite IH.
Qed.

(** X19: when the constructor of [CloudFoundryService] succeeds, what it
    holds was read from one service listed under [cloudantNoSQLDB] of the
    configuration (given as a dict, or decoded from text): host, password
    and user name from the credentials of that service, the port from there
    or 443, the name from the service. With a name given, the service
    carries that name; with none given, the service is the only one listed
    or it has no name. *)
Theorem CloudFoundryService_init_sound (json_loads : string -> option pyval)
  (vcap_services : pyval) (name : option string)
  (self : CloudFoundryService.t) :
  CloudFoundryService.init json_loads vcap_services name = Ok self ->
  ∃ kvs listed service,
    (vcap_services = PDict kvs
     ∨ CloudFoundryService.loads json_loads vcap_services = Ok (PDict kvs))
    ∧ py_iter (from_option id (PList [])
                 (py_dict_lookup "cloudantNoSQLDB" kvs)) = Ok listed
    ∧ service ∈ listed
    ∧ describes service self
    ∧ (∀ n, name = Some n -> CloudFoundryService.name self = PStr n)
    ∧ (name = None ->
       listed = [service] ∨ CloudFoundryService.name self = PNone).
Proof.
  unfold CloudFoundryService.init, CloudFoundryService.name.
  set (services := match vcap_services with
                   | PDict _ => Ok vcap_services
                   | _ => CloudFoundryService.loads json_loads vcap_services
                   end).
  destruct services as [sv|e] eqn:Hsv; [|done]. cbn [bind].
  destruct sv as [| | | | | | |kvs]; try done. cbn [py_get bind].
  set (cs := from_option id (PList []) (py_dict_lookup "cloudantNoSQLDB" kvs)).
  assert (vcap_services = PDict kvs
          ∨ CloudFoundryService.loads json_loads vcap_services
            = Ok (PDict kvs)) as Hfrom.
  { unfold services in Hsv. destruct vcap_services; auto.
    left. congruence. }
  destruct name as [n|].
  - cbn [bind]. destruct (py_iter cs) as [listed|e] eqn:Hit; [|done].
    cbn [bind].
    destruct (CloudFoundryService.select false (Some n) listed) as [t|e]
      eqn:Hsel; [|done].
    intros [= ->].
    apply select_sound in Hsel as (service & Hin & Hd & Hf & _).
    exists kvs, listed, service. repeat split; try done.
    intros n' [= <-]. specialize (Hf eq_refl).
    cbn [CloudFoundryService.eq_name] in Hf.
    destruct (CloudFoundryService._name self); try done.
    cbn [py_eq_str] in Hf. by apply bool_decide_eq_true in Hf as ->.
  - destruct (py_len cs) as [len|e] eqn:Hlen; [|done]. cbn [bind].
    destruct (py_iter cs) as [listed|e] eqn:Hit; [|done]. cbn [bind].
    destruct (CloudFoundryService.select (len =? 1) None listed) as [t|e]
      eqn:Hsel; [|done].
    intros [= ->].
    apply select_sound in Hsel as (service & Hin & Hd & Hf & Ht).
    exists kvs, listed, service. repeat split; try done.
    intros _. destruct (len =? 1) eqn:H1.
    + left. destruct (Ht eq_refl) as [rest ->].
      apply Z.eqb_eq in H1. pose proof (py_len_py_iter _ _ _ Hlen Hit) as Hl.
      cbn [length] in Hl. destruct rest; [done | cbn [length] in Hl; lia].
    + right. specialize (Hf eq_refl).
      cbn [CloudFoundryService.eq_name] in Hf.
      apply bool_decide_eq_true in Hf.
      by destruct (CloudFoundryService._name self).
Qed.

Lemma CloudFoundryService_init_sound_witness :
  ∃ kvs listed service,
    (vcap [named_service "a"; named_service "b"] = PDict kvs
     ∨ CloudFoundryService.loads (fun _ => None)
         (vcap [named_service "a"; named_service "b"]) = Ok (PDict kvs))
    ∧ py_iter (from_option id (PList [])
                 (py_dict_lookup "cloudantNoSQLDB" kvs)) = Ok listed
    ∧ service ∈ listed
    ∧ describes service
        {| CloudFoundryService._host := PStr "b.example";
           CloudFoundryService._name := PStr "b";
           CloudFoundryService._password := PStr "pw";
           CloudFoundryService._port := PInt 443;
           CloudFoundryService._username := PStr "user" |}
    ∧ (∀ n, Some "b" = Some n ->
         CloudFoundryService.name
           {| CloudFoundryService._host := PStr "b.example";
              CloudFoundryService._name := PStr "b";
              CloudFoundryService._password := PStr "pw";
              CloudFoundryService._port := PInt 443;
              CloudFoundryService._username := PStr "user" |} = PStr n)
    ∧ (Some "b" = None ->
       listed = [service]
       ∨ CloudFoundryService.name
           {| CloudFoundryService._host := PStr "b.example";
              CloudFoundryService._name := PStr "b";
              CloudFoundryService._password := PStr "pw";
              CloudFoundryService._port := PInt 443;
              CloudFoundryService._username := PStr "user" |} = PNone).
Proof.
  apply (CloudFoundryService_init_sound (fun _ => None)
           (vcap [named_service "a"; named_service "b"]) (Some "b")).
  reflexivity.
Defined.

Lemma init_sole_describes (json_loads : string -> option pyval)
  (skvs : list (pyval * pyval)) (self : CloudFoundryService.t) :
  describes (PDict skvs) self ->
  CloudFoundryService.init json_loads (vcap [PDict skvs]) None = Ok self.
Proof.
  destruct self as [h n p port u].
  intros (skvs' & ckvs & [= <-] & Hc & Hh & Hp & Hu & Hport & Hname).
  cbn [CloudFoundryService._host CloudFoundryService._name
       CloudFoundryService._password CloudFoundryService._port
       CloudFoundryService._username] in *.
  unfold CloudFoundryService.init, vcap.
  cbn [py_get py_dict_lookup py_eq_str from_option id bind].
  rewrite bool_decide_eq_true_2 by done.
  cbn [from_option id bind py_len py_iter length Z.of_nat Z.eqb Pos.eqb
       Pos.of_succ_nat CloudFoundryService.select py_getitem py_get].
  rewrite Hc. cbn [bind py_getitem py_get]. rewrite Hh, Hp, Hu.
  cbn [bind]. by rewrite Hport, Hname.
Qed.

(** X20: the loop of the constructor takes the first listed service whose
    name is the given one (or the only listed service when no name is
    given), and the object then holds the entries of that service. When all
    listed services are dicts with another name, the constructor raises
    [Missing service in VCAP_SERVICES]; with a name given this holds also
    when a single service is listed. *)
Theorem CloudFoundryService_init_selects (json_loads : string -> option pyval)
  (name : option string) (listed : list pyval) :
  (∀ pre skvs post self,
     listed = (pre ++ PDict skvs :: post)%list ->
     selects name pre skvs post ->
     describes (PDict skvs) self ->
     CloudFoundryService.init json_loads (vcap listed) name = Ok self)
  ∧ (Forall (other_name name) listed ->
     (name = None -> length listed ≠ 1%nat) ->
     CloudFoundryService.init json_loads (vcap listed) name
     = Raise CloudFoundryService.missing_service).
Proof.
  split.
  - intros pre skvs post self -> Hsel Hd.
    rewrite init_selected by done. by apply init_sole_describes.
  - intros Hall Hlen. unfold CloudFoundryService.init, vcap.
    cbn [py_get py_dict_lookup py_eq_str from_option id bind].
    rewrite bool_decide_eq_true_2 by done.
    cbn [from_option id bind py_len py_iter].
    assert (CloudFoundryService.select false name listed
            = Raise CloudFoundryService.missing_service) as Hsel.
    { rewrite <- (app_nil_r listed). by rewrite select_skip. }
    destruct name as [n|]; cbn [bind]; [by rewrite Hsel|].
    rewrite (proj2 (Z.eqb_neq (Z.of_nat (length listed)) 1))
      by (specialize (Hlen eq_refl); lia).
    cbn [bind]. by rewrite Hsel.
Qed.

Lemma CloudFoundryService_init_selects_witness :
  CloudFoundryService.init (fun _ => None)
    (vcap [named_service "a"; named_service "b"; named_service "b"])
    (Some "b")
  = Ok {| CloudFoundryService._host := PStr "b.example";
          CloudFoundryService._name := PStr "b";
          CloudFoundryService._password := PStr "pw";
          CloudFoundryService._port := PInt 443;
          CloudFoundryService._username := PStr "user" |}.
Proof.
  apply (proj1 (CloudFoundryService_init_selects (fun _ => None) (Some "b")
                  [named_service "a"; named_service "b"; named_service "b"])
           [named_service "a"]
           [(PStr "name", PStr "b");
            (PStr "credentials", credentials_of "b.example")]
           [named_service "b"]).
  - reflexivity.
  - right. split; [|reflexivity].
    apply Forall_cons; split; [|apply Forall_nil_2].
    eexists; split; reflexivity.
  - do 2 eexists. repeat split; reflexivity.
Defined.

(** X21: what the constructor does with the service its loop stops at.
    Without a [credentials] entry it raises [Invalid service: 'credentials'
    missing]; with credentials that are no dict it raises [Failed to decode
    VCAP_SERVICES service credentials]; with credentials that lack a
    required entry it names the first one missing of [host], [password],
    [username]; otherwise it succeeds (a [port] is not required). *)
Theorem CloudFoundryService_init_missing_entry
  (json_loads : string -> option pyval) (name : option string)
  (pre : list pyval) (skvs : list (pyval * pyval)) (post : list pyval) :
  selects name pre skvs post ->
  (py_dict_lookup "credentials" skvs = None ->
   CloudFoundryService.init json_loads
     (vcap (pre ++ PDict skvs :: post)%list) name
   = Raise (invalid_service "credentials"))
  ∧ (∀ c, py_dict_lookup "credentials" skvs = Some c ->
          type_of c ≠ Tdict ->
          CloudFoundryService.init json_loads
            (vcap (pre ++ PDict skvs :: post)%list) name
          = Raise (CloudantException
                     (PStr "Failed to decode VCAP_SERVICES service credentials")))
  ∧ (∀ ckvs k, py_dict_lookup "credentials" skvs = Some (PDict ckvs) ->
               first_missing ckvs = Some k ->
               CloudFoundryService.init json_loads
                 (vcap (pre ++ PDict skvs :: post)%list) name
               = Raise (invalid_service k))
  ∧ (∀ ckvs, py_dict_lookup "credentials" skvs = Some (PDict ckvs) ->
             first_missing ckvs = None ->
             ∃ self, CloudFoundryService.init json_loads
                       (vcap (pre ++ PDict skvs :: post)%list) name
                     = Ok self).
Proof.
  intros Hsel. rewrite (init_selected _ _ _ _ _ Hsel).
  unfold CloudFoundryService.init, vcap.
  cbn [py_get py_dict_lookup py_eq_str from_option id bind].
  rewrite bool_decide_eq_true_2 by done.
  cbn [from_option id bind py_len py_iter length Z.of_nat Z.eqb Pos.eqb
       Pos.of_succ_nat CloudFoundryService.select py_getitem py_get].
  split; [|split; [|split]].
  - by intros ->.
  - intros c -> Hc. by destruct c.
  - intros ckvs k -> . unfold first_missing. cbn [List.find bind py_getitem].
    destruct (py_dict_lookup "host" ckvs) eqn:Hh.
    2:{ rewrite bool_decide_eq_true_2 by done. by intros [= <-]. }
    rewrite bool_decide_eq_false_2 by done. cbn [bind].
    destruct (py_dict_lookup "password" ckvs) eqn:Hp.
    2:{ rewrite bool_decide_eq_true_2 by done. by intros [= <-]. }
    rewrite bool_decide_eq_false_2 by done. cbn [bind py_get].
    destruct (py_dict_lookup "username" ckvs) eqn:Hu.
    2:{ rewrite bool_decide_eq_true_2 by done. by intros [= <-]. }
    by rewrite bool_decide_eq_false_2 by done.
  - intros ckvs ->. unfold first_missing. cbn [List.find bind py_getitem].
    destruct (py_dict_lookup "host" ckvs) eqn:Hh.
    2:{ by rewrite bool_decide_eq_true_2 by done. }
    rewrite bool_decide_eq_false_2 by done. cbn [bind].
    destruct (py_dict_lookup "password" ckvs) eqn:Hp.
    2:{ by rewrite bool_decide_eq_true_2 by done. }
    rewrite bool_decide_eq_false_2 by done. cbn [bind py_get].
    destruct (py_dict_lookup "username" ckvs) eqn:Hu.
    2:{ by rewrite bool_decide_eq_true_2 by done. }
    intros _. by eexists.
Qed.

Lemma CloudFoundryService_init_missing_entry_witness :
  CloudFoundryService.init (fun _ => None)
    (vcap [named_service "a";
           PDict [(PStr "name", PStr "b");
                  (PStr "credentials",
                   PDict [(PStr "host", PStr "b.example");
                          (PStr "username", PStr "user")])]])
    (Some "b")
  = Raise (invalid_service "password").
Proof.
  assert (selects (Some "b") [named_service "a"]
            [(PStr "name", PStr "b");
             (PStr "credentials",
              PDict [(PStr "host", PStr "b.example");
                     (PStr "username", PStr "user")])] []) as Hsel.
  { right. split; [|reflexivity].
    apply Forall_cons; split; [|apply Forall_nil_2].
    eexists; split; reflexivity. }
  apply (proj1 (proj2 (proj2
           (CloudFoundryService_init_missing_entry (fun _ => None) _ _ _ _
              Hsel)))
           [(PStr "host", PStr "b.example"); (PStr "username", PStr "user")]).
  - reflexivity.
  - reflexivity.
Defined.

(** X22: [port] and [url] of a service object built by the constructor,
    for a host given as a string: without a [port] entry in the credentials
    the port is ["443"] and the URL ends in [:443]; with an integer port the
    two hold its decimal digits; a port given as a string is taken
    as it is. *)
Theorem CloudFoundryService_url_of_selected (container_str : pyval -> string)
  (json_loads : string -> option pyval) (name : option string)
  (pre : list pyval) (skvs : list (pyval * pyval)) (post : list pyval)
  (self : CloudFoundryService.t) (ckvs : list (pyval * pyval)) (h : string) :
  selects name pre skvs post ->
  CloudFoundryService.init json_loads
    (vcap (pre ++ PDict skvs :: post)%list) name = Ok self ->
  py_dict_lookup "credentials" skvs = Some (PDict ckvs) ->
  py_dict_lookup "host" ckvs = Some (PStr h) ->
  CloudFoundryService.host self = PStr h
  ∧ (py_dict_lookup "port" ckvs = None ->
     CloudFoundryService.port container_str self = "443"
     ∧ CloudFoundryService.url container_str self = "https://" ++ h ++ ":443")
  ∧ (∀ p, py_dict_lookup "port" ckvs = Some (PInt p) ->
          CloudFoundryService.port container_str self = int_str p
          ∧ CloudFoundryService.url container_str self
            = "https://" ++ h ++ ":" ++ int_str p)
  ∧ (∀ p, py_dict_lookup "port" ckvs = Some (PStr p) ->
          CloudFoundryService.port container_str self = p
          ∧ CloudFoundryService.url container_str self
            = "https://" ++ h ++ ":" ++ p).
Proof.
  intros Hsel. rewrite (init_selected _ _ _ _ _ Hsel).
  unfold CloudFoundryService.init, vcap.
  cbn [py_get py_dict_lookup py_eq_str from_option id bind].
  rewrite bool_decide_eq_true_2 by done.
  cbn [from_option id bind py_len py_iter length Z.of_nat Z.eqb Pos.eqb
       Pos.of_succ_nat CloudFoundryService.select py_getitem py_get].
  intros Hinit Hc Hh. revert Hinit. rewrite Hc. cbn [bind py_getitem py_get].
  rewrite Hh. cbn [bind].
  destruct (py_dict_lookup "password" ckvs); [|done]. cbn [bind].
  destruct (py_dict_lookup "username" ckvs); [|done]. cbn [bind].
  intros [= <-].
  unfold CloudFoundryService.host, CloudFoundryService.port,
    CloudFoundryService.url.
  cbn [CloudFoundryService._host CloudFoundryService._port py_str].
  split; [done|]. split; [|split].
  - by intros ->.
  - by intros q ->.
  - by intros q ->.
Qed.

Lemma CloudFoundryService_url_of_selected_witness :
  CloudFoundryService.url (fun _ => "")
    {| CloudFoundryService._host := PStr "a.example";
       CloudFoundryService._name := PStr "a";
       CloudFoundryService._password := PStr "pw";
       CloudFoundryService._port := PInt 443;
       CloudFoundryService._username := PStr "user" |}
  = "https://a.example:443".
Proof.
  assert (selects None []
            [(PStr "name", PStr "a");
             (PStr "credentials", credentials_of "a.example")] []) as Hsel
    by (by left).
  apply (proj1 (proj2 (CloudFoundryService_url_of_selected (fun _ => "")
                         (fun _ => None) _ _ _ _
                         {| CloudFoundryService._host := PStr "a.example";
                            CloudFoundryService._name := PStr "a";
                            CloudFoundryService._password := PStr "pw";
                            CloudFoundryService._port := PInt 443;
                            CloudFoundryService._username := PStr "user" |}
                         [(PStr "host", PStr "a.example");
                          (PStr "username", PStr "user");
                          (PStr "password", PStr "pw")]
                         "a.example" Hsel eq_refl eq_refl eq_refl))).
  reflexivity.
Defined.

Lemma select_raises (use_first : bool) (name : option string)
  (listed : list pyval) (e : exn) :
  Forall (fun s => type_of s = Tdict) listed ->
  CloudFoundryService.select use_first name listed = Raise e ->
  ∃ msg, CloudFoundryService.init_handler e = CloudantException (PStr msg).
Proof.
  assert (∀ skvs,
    (credentials <~ py_getitem (PDict skvs) "credentials" ;;
     host <~ py_getitem credentials "host" ;;
     sname <~ py_get (PDict skvs) "name" PNone ;;
     password <~ py_getitem credentials "password" ;;
     port <~ py_get credentials "port" (PInt 443) ;;
     username <~ py_getitem credentials "username" ;;
     Ok {| CloudFoundryService._host := host;
           CloudFoundryService._name := sname;
           CloudFoundryService._password := password;
           CloudFoundryService._port := port;
           CloudFoundryService._username := username |}) = Raise e ->
    ∃ msg, CloudFoundryService.init_handler e = CloudantException (PStr msg))
    as Hbody.
  { intros skvs. cbn [py_getitem py_get bind].
    destruct (py_dict_lookup "credentials" skvs) as [c|];
      [|intros [= <-]; by eexists].
    cbn [bind].
    destruct c as [| | | | | | |ckvs];
      try (cbn [py_getitem bind]; intros [= <-]; by eexists).
    cbn [py_getitem py_get bind].
    destruct (py_dict_lookup "host" ckvs);
      [|intros [= <-]; by eexists]. cbn [bind].
    destruct (py_dict_lookup "password" ckvs);
      [|intros [= <-]; by eexists]. cbn [bind].
    destruct (py_dict_lookup "username" ckvs);
      [|intros [= <-]; by eexists]. done. }
  induction 1 as [|s rest Hs _ IH].
  - intros [= <-]. by eexists.
  - cbn [CloudFoundryService.select].
    destruct s as [| | | | | | |skvs]; try done.
    destruct use_first; cbn [py_get bind]; [apply Hbody|].
    destruct (CloudFoundryService.eq_name _ name); [apply Hbody | apply IH].
Qed.

(** X23: when the configuration is a dict, or text that [json.loads]
    decodes to a dict, and its [cloudantNoSQLDB] entry (if any) is a list of
    dicts, every exception the constructor raises is a [CloudantException];
    so it is for text that is not JSON. *)
Theorem CloudFoundryService_init_raises_CloudantException
  (json_loads : string -> option pyval) (vcap_services : pyval)
  (name : option string) (e : exn) :
  (∃ kvs,
     (vcap_services = PDict kvs
      ∨ ∃ text, vcap_services = PStr text ∧ json_loads text = Some (PDict kvs))
     ∧ ∀ v, py_dict_lookup "cloudantNoSQLDB" kvs = Some v ->
            ∃ listed, v = PList listed
                      ∧ Forall (fun s => type_of s = Tdict) listed)
  ∨ (∃ text, vcap_services = PStr text ∧ json_loads text = None) ->
  CloudFoundryService.init json_loads vcap_services name = Raise e ->
  ∃ msg, e = CloudantException (PStr msg).
Proof.
  intros [(kvs & Hfrom & Hlist)|(text & -> & Hj)].
  2:{ unfold CloudFoundryService.init, CloudFoundryService.loads.
      rewrite Hj. cbn [bind]. intros [= <-]. by eexists. }
  assert (CloudFoundryService.init json_loads vcap_services name
          = CloudFoundryService.init json_loads (PDict kvs) name) as ->.
  { destruct Hfrom as [->|(text & -> & Hj)]; [done|].
    unfold CloudFoundryService.init, CloudFoundryService.loads.
    by rewrite Hj. }
  unfold CloudFoundryService.init. cbn [bind py_get].
  assert (∃ listed,
            from_option id (PList []) (py_dict_lookup "cloudantNoSQLDB" kvs)
            = PList listed
            ∧ Forall (fun s => type_of s = Tdict) listed)
    as (listed & -> & Hall).
  { destruct (py_dict_lookup "cloudantNoSQLDB" kvs) as [v|].
    - destruct (Hlist v eq_refl) as (listed & -> & Hall). by exists listed.
    - by exists []. }
  cbn [py_len py_iter bind].
  destruct name as [n|]; cbn [bind].
  - destruct (CloudFoundryService.select false (Some n) listed) as [t|e']
      eqn:Hsel; [done|].
    intros [= <-]. by eapply select_raises.
  - destruct (CloudFoundryService.select _ None listed) as [t|e']
      eqn:Hsel; [done|].
    intros [= <-]. by eapply select_raises.
Qed.

Lemma CloudFoundryService_init_raises_CloudantException_witness :
  ∃ msg,
    CloudantException (PStr "Invalid service: 'host' missing")
    = CloudantException (PStr msg).
Proof.
  apply (CloudFoundryService_init_raises_CloudantException (fun _ => None)
           (vcap [PDict [(PStr "credentials", PDict [])]]) None).
  - left. eexists. split; [by left|].
    intros v [= <-]. eexists. split; [reflexivity|].
    by apply Forall_cons.
  - reflexivity.
Defined.

(** X24: [codify] is idempotent, it never returns a plain string, and it
    returns [None] only for [None]. *)
Theorem codify_idempotent (c : code_or_str) :
  codify (codify c) = codify c
  ∧ (∀ s, codify c ≠ PlainStr s)
  ∧ (codify c = NoCode <-> c = NoCode).
Proof. by destruct c. Qed.

(** X25: a session built without a truthy [auto_renew] keyword never logs
    in on its own: a request of a [CookieSession] is the one request of the
    underlying session, with the [timeout] keyword of the constructor (or
    [None]); a request of an [IAMSession] only discards the expired cookies
    before it. *)
Theorem session_without_auto_renew (url_join : string -> string -> string)
  (environ : odict string string) (kwargs : odict string pyval) :
  py_truthy (from_option id (PBool false) (dict_get "auto_renew" kwargs))
  = false ->
  (∀ username password server_url method url kw w,
     CookieSession.request
       (CookieSession.init url_join username password server_url kwargs)
       method url kw w
     = ClientSession.request
         (from_option id PNone (dict_get "timeout" kwargs))
         InRequest method url kw w)
  ∧ (∀ api_key server_url method url kw w,
       IAMSession.request
         (IAMSession.init url_join environ api_key server_url kwargs)
         method url kw w
       = (_ <<~ clear_expired_cookies ;;
          ClientSession.request
            (from_option id PNone (dict_get "timeout" kwargs))
            InRequest method url kw) w).
Proof.
  intros Hoff. split.
  - intros. unfold CookieSession.request, CookieSession.init.
    cbn [CookieSession._auto_renew CookieSession._timeout]. rewrite Hoff.
    cbn [negb]. unfold bindM, ret.
    by destruct (ClientSession.request _ _ _ _ _ _) as [w' [r|e]].
  - intros. unfold IAMSession.request, IAMSession.init.
    cbn [IAMSession._auto_renew IAMSession._timeout]. rewrite Hoff.
    cbn [negb andb]. unfold bindM, ret, clear_expired_cookies.
    by destruct (ClientSession.request _ _ _ _ _ _) as [w' [r|e]].
Qed.

Lemma session_without_auto_renew_witness :
  CookieSession.request
    (CookieSession.init (fun base path => base ++ "/" ++ path)
       "alice" "secret" "https://a.example" [("timeout", PInt 5)])
    "GET" docs_url [] (world_of always_401 [])
  = ClientSession.request (PInt 5) InRequest "GET" docs_url []
      (world_of always_401 []).
Proof.
  apply (proj1 (session_without_auto_renew (fun base path => base ++ "/" ++ path)
                  [] [("timeout", PInt 5)] eq_refl)).
Defined.

(** X26: how the three tables of feed options are layered. A feed type
    other than ['Cloudant'] and ['CouchDB'] gets the table of the changes
    feed, which has every option of the ['Cloudant'] table with the same
    types. The ['Cloudant'] table has every option of the ['CouchDB'] table
    with the same types, but for [heartbeat], a bool for ['CouchDB'] and an
    integer or [None] in the two other tables. *)
Theorem feed_arg_types_layers (feed_type key : string) (types : list pytype) :
  feed_type ≠ "Cloudant" -> feed_type ≠ "CouchDB" ->
  (dict_get key (feed_arg_types "Cloudant") = Some types ->
   dict_get key (feed_arg_types feed_type) = Some types)
  ∧ (key ≠ "heartbeat" ->
     dict_get key (feed_arg_types "CouchDB") = Some types ->
     dict_get key (feed_arg_types "Cloudant") = Some types)
  ∧ dict_get "heartbeat" (feed_arg_types "CouchDB") = Some [Tbool]
  ∧ dict_get "heartbeat" (feed_arg_types "Cloudant")
    = Some [Tint; LONGTYPE; NONETYPE]
  ∧ dict_get "heartbeat" (feed_arg_types feed_type)
    = Some [Tint; LONGTYPE; NONETYPE].
Proof.
  intros H1 H2.
  assert (feed_arg_types feed_type = _CHANGES_ARG_TYPES) as ->.
  { unfold feed_arg_types. by rewrite !decide_False. }
  split; [|split; [|by repeat split]].
  - intros Hin%dict_get_Some_elem.
    assert (Forall (fun kv => dict_get kv.1 _CHANGES_ARG_TYPES = Some kv.2)
              (feed_arg_types "Cloudant")) as Hall by decided.
    by apply (proj1 (Forall_forall _ _) Hall (key, types)).
  - intros Hk Hin%dict_get_Some_elem.
    assert (Forall (fun kv => kv.1 ≠ "heartbeat" ->
                              dict_get kv.1 (feed_arg_types "Cloudant")
                              = Some kv.2)
              (feed_arg_types "CouchDB")) as Hall by decided.
    by apply (proj1 (Forall_forall _ _) Hall (key, types)).
Qed.

Lemma feed_arg_types_layers_witness :
  dict_get "timeout" (feed_arg_types "normal")
  = Some [Tint; LONGTYPE; NONETYPE].
Proof.
  apply (proj1 (feed_arg_types_layers "normal" "timeout"
                  [Tint; LONGTYPE; NONETYPE]
                  ltac:(intros [=]) ltac:(intros [=]))).
  reflexivity.
Defined.
